(** * Galaxy Jump: the per-frame simulation of the three [GameCanvas] variants

    The repository holds three versions of the [GameCanvas] component:

    - [Centered]: the player is pinned to the vertical middle of the window and
      obstacles are 80 pixels wide;
    - [Lowered]: the player is pinned lower on the screen and obstacles are as
      wide as the walls;
    - [Climbing]: the player climbs at a constant speed and there are no
      obstacles.

    Each variant is embedded as it is written: the game state is a record, the
    state updaters passed to [setGameState] are functions from the previous
    state to the next one, and everything the code reads from its environment
    (the window size, the outcome of [Math.random() < 0.5], the time between two
    animation frames) is an explicit argument.

    JavaScript numbers are modelled as exact rationals ([Q]): arithmetic is
    exact and the rounding of IEEE doubles is not modelled.  [===] on numbers
    is [Qeq_bool], [<=] is [Qle_bool] and [<] is [Qlt_bool] below.  The concrete
    runs of the examples take dyadic time steps and integer window sizes, so
    that every comparison they go through comes out the same on doubles. *)

From Stdlib Require Import QArith Qminmax Lqa List Bool String.
Import ListNotations.
Local Open Scope Q_scope.

(** ** Numbers *)

(** [a < b] on numbers, as a boolean. *)
Definition Qlt_bool (a b : Q) : bool := negb (Qle_bool b a).

(** ** Data shared by the variants *)

Module Obstacle.
Record t : Type := mk
  { x : Q;
    y : Q;
    width : Q;
    height : Q;
    isOnLeftWall : bool }.
End Obstacle.

(** The [GameState] interface of the two side-to-side variants. *)
Record GameState : Type := mkGameState
  { playerX : Q;
    playerY : Q;
    playerSize : Q;
    wallWidth : Q;
    speed : Q;
    isOnLeftWall : bool;
    isJumping : bool;
    jumpProgress : Q;
    timeElapsed : Q;
    isGameOver : bool;
    obstacles : list Obstacle.t;
    lastObstacleTime : Q }.

(** What a frame reads from its environment: [window.innerWidth],
    [window.innerHeight] and the outcome of [Math.random() < 0.5]. *)
Record Window : Type := mkWindow
  { innerWidth : Q;
    innerHeight : Q }.

Record Frame : Type := mkFrame
  { window : Window;
    deltaTime : Q;
    spawnOnLeft : bool }.

(** [jump] and [returnToSameWall] are the same in every variant that has them:
    both spread [prev] and overwrite [isJumping] and [jumpProgress]. *)
Definition set_jump (prev : GameState) (j : bool) (p : Q) : GameState :=
  {| playerX := playerX prev;
     playerY := playerY prev;
     playerSize := playerSize prev;
     wallWidth := wallWidth prev;
     speed := speed prev;
     isOnLeftWall := isOnLeftWall prev;
     isJumping := j;
     jumpProgress := p;
     timeElapsed := timeElapsed prev;
     isGameOver := isGameOver prev;
     obstacles := obstacles prev;
     lastObstacleTime := lastObstacleTime prev |}.

Definition jump (prev : GameState) : GameState := set_jump prev true 0.

Definition returnToSameWall (prev : GameState) : GameState := set_jump prev true 0.

(** The spawn interval: [Math.max(minSpawnRate, baseSpawnRate - newTimeElapsed * timeSpeedupFactor)]. *)
Definition baseSpawnRate : Q := 3 # 2.
Definition minSpawnRate : Q := 3 # 10.
Definition timeSpeedupFactor : Q := 1 # 10.

Definition obstacleSpawnRate (newTimeElapsed : Q) : Q :=
  Qmax minSpawnRate (baseSpawnRate - newTimeElapsed * timeSpeedupFactor).

Definition obstacleSpeed : Q := 200.

(** [newObstacles.map(o => ({...o, y: o.y + obstacleSpeed * deltaTime}))
      .filter(o => o.y < window.innerHeight + 100)] *)
Definition moveObstacle (deltaTime : Q) (obstacle : Obstacle.t) : Obstacle.t :=
  {| Obstacle.x := Obstacle.x obstacle;
     Obstacle.y := Obstacle.y obstacle + obstacleSpeed * deltaTime;
     Obstacle.width := Obstacle.width obstacle;
     Obstacle.height := Obstacle.height obstacle;
     Obstacle.isOnLeftWall := Obstacle.isOnLeftWall obstacle |}.

Definition onScreen (w : Window) (obstacle : Obstacle.t) : bool :=
  Qlt_bool (Obstacle.y obstacle) (innerHeight w + 100).

Definition advanceObstacles (f : Frame) (l : list Obstacle.t) : list Obstacle.t :=
  filter (onScreen (window f)) (map (moveObstacle (deltaTime f)) l).

(** The collision loop: [isGameOver] starts false, the first obstacle that hits
    sets it and breaks out of the loop. *)
Fixpoint collisionLoop (hit : Obstacle.t -> bool) (l : list Obstacle.t) : bool :=
  match l with
  | [] => false
  | obstacle :: rest => if hit obstacle then true else collisionLoop hit rest
  end.

(** The frame clock of [gameLoop]: the previous timestamp is seeded by the
    first call, so that the first [deltaTime] is zero. *)
Definition frameClock (previousTimeRef : option Q) (time : Q) : Q * option Q :=
  let previous := match previousTimeRef with None => time | Some t => t end in
  ((time - previous) / 1000, Some time).

(** ** The variant with the player in the middle and 80 pixel obstacles *)

Module Centered.

Definition initialPlayerY (w : option Window) : Q :=
  match w with
  | Some win => innerHeight win / 2 - 15
  | None => 300
  end.

(** The argument of [useState]. *)
Definition initialGameState (w : option Window) : GameState :=
  {| playerX := 50;
     playerY := initialPlayerY w;
     playerSize := 30;
     wallWidth := 30;
     speed := 150;
     isOnLeftWall := true;
     isJumping := false;
     jumpProgress := 0;
     timeElapsed := 0;
     isGameOver := false;
     obstacles := [];
     lastObstacleTime := 0 |}.

Definition restartGame (w : option Window) : GameState :=
  {| playerX := 50;
     playerY := initialPlayerY w;
     playerSize := 30;
     wallWidth := 40;
     speed := 150;
     isOnLeftWall := true;
     isJumping := false;
     jumpProgress := 0;
     timeElapsed := 0;
     isGameOver := false;
     obstacles := [];
     lastObstacleTime := 0 |}.

(** Is the player's horizontal centre inside the white line? *)
Definition inWhiteLine (w : Window) (whiteLineWidth : Q) (s : GameState) : bool :=
  let centerX := innerWidth w / 2 in
  let playerCenterX := playerX s + playerSize s / 2 in
  Qle_bool (centerX - whiteLineWidth / 2) playerCenterX
  && Qle_bool playerCenterX (centerX + whiteLineWidth / 2).

(** The handlers read the [gameState] their closure has captured and queue an
    updater, which is applied to the state of that moment, [prev]. *)
Definition handleKeyDown (gameState : GameState) (w : Window) (code : string)
    (prev : GameState) : GameState :=
  if String.eqb code "Space" then
    if negb (isJumping gameState) then jump prev
    else if inWhiteLine w 100 gameState then returnToSameWall prev
    else prev
  else prev.

Definition handleClick (gameState : GameState) (prev : GameState) : GameState :=
  if negb (isJumping gameState) then jump prev else prev.

(** The wall positions of the player. *)
Definition wallX (w : Window) (prev : GameState) (left : bool) : Q :=
  if left then wallWidth prev + 10
  else innerWidth w - wallWidth prev - 10 - playerSize prev.

(** The jump branch of the updater: the new [x], wall, jumping flag and
    progress. *)
Definition movePlayer (f : Frame) (prev : GameState) : Q * bool * bool * Q :=
  if isJumping prev then
    let newJumpProgress := jumpProgress prev + deltaTime f * 5 in
    if Qle_bool 1 newJumpProgress then
      let isReturningToSameWall := inWhiteLine (window f) 100 prev in
      let newIsOnLeftWall :=
        if isReturningToSameWall && Qeq_bool (jumpProgress prev) 0
        then isOnLeftWall prev
        else negb (isOnLeftWall prev) in
      (wallX (window f) prev newIsOnLeftWall, newIsOnLeftWall, false, newJumpProgress)
    else
      let startX := wallX (window f) prev (isOnLeftWall prev) in
      let isReturningToSameWall :=
        inWhiteLine (window f) 100 prev && Qeq_bool (jumpProgress prev) 0 in
      let endX :=
        if isReturningToSameWall then startX
        else wallX (window f) prev (negb (isOnLeftWall prev)) in
      (startX + (endX - startX) * newJumpProgress,
       isOnLeftWall prev, isJumping prev, newJumpProgress)
  else
    (wallX (window f) prev (isOnLeftWall prev),
     isOnLeftWall prev, isJumping prev, jumpProgress prev).

Definition shouldSpawn (newTimeElapsed : Q) (prev : GameState) : bool :=
  Qlt_bool (obstacleSpawnRate newTimeElapsed) (newTimeElapsed - lastObstacleTime prev).

Definition newObstacle (f : Frame) : Obstacle.t :=
  let obstacleWidth := 80 in
  let obstacleHeight := 80 in
  {| Obstacle.x := if spawnOnLeft f then 0 else innerWidth (window f) - obstacleWidth;
     Obstacle.y := - obstacleHeight;
     Obstacle.width := obstacleWidth;
     Obstacle.height := obstacleHeight;
     Obstacle.isOnLeftWall := spawnOnLeft f |}.

(** [newObstacles] after the optional [push]. *)
Definition spawnObstacles (f : Frame) (newTimeElapsed : Q) (prev : GameState)
  : list Obstacle.t :=
  if shouldSpawn newTimeElapsed prev
  then obstacles prev ++ [newObstacle f]
  else obstacles prev.

(** The body of the collision loop. *)
Definition hits (prev : GameState) (newX newY : Q) (obstacle : Obstacle.t) : bool :=
  let playerOnSameWall :=
    (isOnLeftWall prev && Obstacle.isOnLeftWall obstacle)
    || (negb (isOnLeftWall prev) && negb (Obstacle.isOnLeftWall obstacle)) in
  if playerOnSameWall && negb (isJumping prev) then
    let playerLeft := newX in
    let playerRight := newX + playerSize prev in
    let playerTop := newY in
    let playerBottom := newY + playerSize prev in
    let obstacleLeft := Obstacle.x obstacle in
    let obstacleRight := Obstacle.x obstacle + Obstacle.width obstacle in
    let obstacleTop := Obstacle.y obstacle in
    let obstacleBottom := Obstacle.y obstacle + Obstacle.height obstacle in
    Qlt_bool playerLeft obstacleRight
    && Qlt_bool obstacleLeft playerRight
    && Qlt_bool playerTop obstacleBottom
    && Qlt_bool obstacleTop playerBottom
  else false.

(** The updater that [gameLoop] passes to [setGameState]. *)
Definition updateGameState (f : Frame) (prev : GameState) : GameState :=
  if isGameOver prev then prev
  else
    let newY := innerHeight (window f) / 2 - playerSize prev / 2 in
    let '(newX, newIsOnLeftWall, newIsJumping, newJumpProgress) := movePlayer f prev in
    let newTimeElapsed := timeElapsed prev + deltaTime f in
    let newObstacles := advanceObstacles f (spawnObstacles f newTimeElapsed prev) in
    let isGameOver' := collisionLoop (hits prev newX newY) newObstacles in
    {| playerX := newX;
       playerY := newY;
       playerSize := playerSize prev;
       wallWidth := wallWidth prev;
       speed := speed prev;
       isOnLeftWall := newIsOnLeftWall;
       isJumping := newIsJumping;
       jumpProgress := newJumpProgress;
       timeElapsed := newTimeElapsed;
       isGameOver := isGameOver';
       obstacles := newObstacles;
       lastObstacleTime :=
         if shouldSpawn newTimeElapsed prev then newTimeElapsed
         else lastObstacleTime prev |}.

(** One call of [gameLoop]: the clock, then the updater. *)
Definition gameLoop (time : Q) (w : Window) (random : bool)
    (st : option Q * GameState) : option Q * GameState :=
  let '(deltaTime, previousTimeRef) := frameClock (fst st) time in
  (previousTimeRef, updateGameState (mkFrame w deltaTime random) (snd st)).

(** What can happen to the component, and the state after a run of events.
    A key press or click carries the [gameState] that the handler's closure
    holds when it runs, which React refreshes only when [isJumping] changes;
    the updater it queues is applied to the current state.  [Restart] is the
    button of the game-over dialog. *)
Inductive Event : Type :=
| Tick (f : Frame)
| KeyDown (gameState : GameState) (w : Window) (code : string)
| Click (gameState : GameState)
| Restart (w : option Window).

Definition step (s : GameState) (e : Event) : GameState :=
  match e with
  | Tick f => updateGameState f s
  | KeyDown gameState w code => handleKeyDown gameState w code s
  | Click gameState => handleClick gameState s
  | Restart w => restartGame w
  end.

Definition run (s : GameState) (es : list Event) : GameState := fold_left step es s.

End Centered.

(** ** The variant with the player lower on the screen and wall-wide obstacles *)

Module Lowered.

Definition initialPlayerY (w : option Window) : Q :=
  match w with
  | Some win => innerHeight win * (7 # 10) - 15
  | None => 400
  end.

Definition initialGameState (w : option Window) : GameState :=
  {| playerX := 30;
     playerY := initialPlayerY w;
     playerSize := 30;
     wallWidth := 30;
     speed := 150;
     isOnLeftWall := true;
     isJumping := false;
     jumpProgress := 0;
     timeElapsed := 0;
     isGameOver := false;
     obstacles := [];
     lastObstacleTime := 0 |}.

Definition restartGame (w : option Window) : GameState :=
  {| playerX := 30;
     playerY := initialPlayerY w;
     playerSize := 30;
     wallWidth := 40;
     speed := 150;
     isOnLeftWall := true;
     isJumping := false;
     jumpProgress := 0;
     timeElapsed := 0;
     isGameOver := false;
     obstacles := [];
     lastObstacleTime := 0 |}.

Definition inWhiteLine (w : Window) (whiteLineWidth : Q) (s : GameState) : bool :=
  let centerX := innerWidth w / 2 in
  let playerCenterX := playerX s + playerSize s / 2 in
  Qle_bool (centerX - whiteLineWidth / 2) playerCenterX
  && Qle_bool playerCenterX (centerX + whiteLineWidth / 2).

(** The key handler tests a white line of width 20, the updater one of
    width 100. *)
Definition handleKeyDown (gameState : GameState) (w : Window) (code : string)
    (prev : GameState) : GameState :=
  if String.eqb code "Space" then
    if negb (isJumping gameState) then jump prev
    else if inWhiteLine w 20 gameState then returnToSameWall prev
    else prev
  else prev.

Definition handleClick (gameState : GameState) (prev : GameState) : GameState :=
  if negb (isJumping gameState) then jump prev else prev.

Definition wallX (w : Window) (prev : GameState) (left : bool) : Q :=
  if left then wallWidth prev
  else innerWidth w - wallWidth prev - playerSize prev.

Definition movePlayer (f : Frame) (prev : GameState) : Q * bool * bool * Q :=
  if isJumping prev then
    let newJumpProgress := jumpProgress prev + deltaTime f * (5 # 2) in
    if Qle_bool 1 newJumpProgress then
      let isReturningToSameWall := inWhiteLine (window f) 100 prev in
      let newIsOnLeftWall :=
        if isReturningToSameWall && Qeq_bool (jumpProgress prev) 0
        then isOnLeftWall prev
        else negb (isOnLeftWall prev) in
      (wallX (window f) prev newIsOnLeftWall, newIsOnLeftWall, false, newJumpProgress)
    else
      let startX := wallX (window f) prev (isOnLeftWall prev) in
      let isReturningToSameWall :=
        inWhiteLine (window f) 100 prev && Qeq_bool (jumpProgress prev) 0 in
      let endX :=
        if isReturningToSameWall then startX
        else wallX (window f) prev (negb (isOnLeftWall prev)) in
      (startX + (endX - startX) * newJumpProgress,
       isOnLeftWall prev, isJumping prev, newJumpProgress)
  else
    (wallX (window f) prev (isOnLeftWall prev),
     isOnLeftWall prev, isJumping prev, jumpProgress prev).

Definition shouldSpawn (newTimeElapsed : Q) (prev : GameState) : bool :=
  Qlt_bool (obstacleSpawnRate newTimeElapsed) (newTimeElapsed - lastObstacleTime prev).

Definition newObstacle (f : Frame) (prev : GameState) : Obstacle.t :=
  let obstacleWidth := wallWidth prev in
  let obstacleHeight := 80 in
  {| Obstacle.x := if spawnOnLeft f then 0 else innerWidth (window f) - wallWidth prev;
     Obstacle.y := - obstacleHeight;
     Obstacle.width := obstacleWidth;
     Obstacle.height := obstacleHeight;
     Obstacle.isOnLeftWall := spawnOnLeft f |}.

Definition spawnObstacles (f : Frame) (newTimeElapsed : Q) (prev : GameState)
  : list Obstacle.t :=
  if shouldSpawn newTimeElapsed prev
  then obstacles prev ++ [newObstacle f prev]
  else obstacles prev.

(** The body of the collision loop: the bounds are checked "regardless of
    wall position or jumping state", with inclusive comparisons. *)
Definition hits (prev : GameState) (newX newY : Q) (obstacle : Obstacle.t) : bool :=
  let playerLeft := newX in
  let playerRight := newX + playerSize prev in
  let playerTop := newY in
  let playerBottom := newY + playerSize prev in
  let obstacleLeft := Obstacle.x obstacle in
  let obstacleRight := Obstacle.x obstacle + Obstacle.width obstacle in
  let obstacleTop := Obstacle.y obstacle in
  let obstacleBottom := Obstacle.y obstacle + Obstacle.height obstacle in
  Qle_bool obstacleLeft playerRight
  && Qle_bool playerLeft obstacleRight
  && Qle_bool obstacleTop playerBottom
  && Qle_bool playerTop obstacleBottom.

Definition updateGameState (f : Frame) (prev : GameState) : GameState :=
  if isGameOver prev then prev
  else
    let newY := innerHeight (window f) * (7 # 10) - playerSize prev / 2 in
    let '(newX, newIsOnLeftWall, newIsJumping, newJumpProgress) := movePlayer f prev in
    let newTimeElapsed := timeElapsed prev + deltaTime f in
    let newObstacles := advanceObstacles f (spawnObstacles f newTimeElapsed prev) in
    let isGameOver' :=
      if negb (isGameOver prev)
      then collisionLoop (hits prev newX newY) newObstacles
      else isGameOver prev in
    {| playerX := newX;
       playerY := newY;
       playerSize := playerSize prev;
       wallWidth := wallWidth prev;
       speed := speed prev;
       isOnLeftWall := newIsOnLeftWall;
       isJumping := newIsJumping;
       jumpProgress := newJumpProgress;
       timeElapsed := newTimeElapsed;
       isGameOver := isGameOver';
       obstacles := newObstacles;
       lastObstacleTime :=
         if shouldSpawn newTimeElapsed prev then newTimeElapsed
         else lastObstacleTime prev |}.

Definition gameLoop (time : Q) (w : Window) (random : bool)
    (st : option Q * GameState) : option Q * GameState :=
  let '(deltaTime, previousTimeRef) := frameClock (fst st) time in
  (previousTimeRef, updateGameState (mkFrame w deltaTime random) (snd st)).

Inductive Event : Type :=
| Tick (f : Frame)
| KeyDown (gameState : GameState) (w : Window) (code : string)
| Click (gameState : GameState)
| Restart (w : option Window).

Definition step (s : GameState) (e : Event) : GameState :=
  match e with
  | Tick f => updateGameState f s
  | KeyDown gameState w code => handleKeyDown gameState w code s
  | Click gameState => handleClick gameState s
  | Restart w => restartGame w
  end.

Definition run (s : GameState) (es : list Event) : GameState := fold_left step es s.

End Lowered.

(** ** The climbing variant: no obstacles, the run ends at the top of the screen *)

Module Climbing.

Record GameState : Type := mkGameState
  { playerX : Q;
    playerY : Q;
    playerSize : Q;
    wallWidth : Q;
    speed : Q;
    isOnLeftWall : bool;
    isJumping : bool;
    jumpProgress : Q;
    timeElapsed : Q;
    isGameOver : bool }.

Definition initialPlayerY (w : option Window) : Q :=
  match w with
  | Some win => innerHeight win - 200
  | None => 600
  end.

Definition initialGameState (w : option Window) : GameState :=
  {| playerX := 50;
     playerY := initialPlayerY w;
     playerSize := 30;
     wallWidth := 40;
     speed := 150;
     isOnLeftWall := true;
     isJumping := false;
     jumpProgress := 0;
     timeElapsed := 0;
     isGameOver := false |}.

Definition restartGame (w : option Window) : GameState :=
  {| playerX := 50;
     playerY := initialPlayerY w;
     playerSize := 30;
     wallWidth := 40;
     speed := 150;
     isOnLeftWall := true;
     isJumping := false;
     jumpProgress := 0;
     timeElapsed := 0;
     isGameOver := false |}.

Definition jump (prev : GameState) : GameState :=
  {| playerX := playerX prev;
     playerY := playerY prev;
     playerSize := playerSize prev;
     wallWidth := wallWidth prev;
     speed := speed prev;
     isOnLeftWall := isOnLeftWall prev;
     isJumping := true;
     jumpProgress := 0;
     timeElapsed := timeElapsed prev;
     isGameOver := isGameOver prev |}.

(** Both handlers: jump when resting and alive, restart when the game is
    over. *)
Definition handleClick (gameState : GameState) (w : option Window)
    (prev : GameState) : GameState :=
  if negb (isJumping gameState) && negb (isGameOver gameState) then jump prev
  else if isGameOver gameState then restartGame w
  else prev.

Definition handleKeyDown (gameState : GameState) (w : option Window) (code : string)
    (prev : GameState) : GameState :=
  if String.eqb code "Space" then
    if negb (isJumping gameState) && negb (isGameOver gameState) then jump prev
    else if isGameOver gameState then restartGame w
    else prev
  else prev.

Definition wallX (w : Window) (prev : GameState) (left : bool) : Q :=
  if left then wallWidth prev + 10
  else innerWidth w - wallWidth prev - 10 - playerSize prev.

Definition movePlayer (f : Frame) (prev : GameState) : Q * bool * bool * Q :=
  if isJumping prev then
    let newJumpProgress := jumpProgress prev + deltaTime f * 5 in
    if Qle_bool 1 newJumpProgress then
      let newIsOnLeftWall := negb (isOnLeftWall prev) in
      (wallX (window f) prev newIsOnLeftWall, newIsOnLeftWall, false, newJumpProgress)
    else
      let startX := wallX (window f) prev (isOnLeftWall prev) in
      let endX := wallX (window f) prev (negb (isOnLeftWall prev)) in
      (startX + (endX - startX) * newJumpProgress,
       isOnLeftWall prev, isJumping prev, newJumpProgress)
  else
    (wallX (window f) prev (isOnLeftWall prev),
     isOnLeftWall prev, isJumping prev, jumpProgress prev).

Definition updateGameState (f : Frame) (prev : GameState) : GameState :=
  if isGameOver prev then prev
  else
    let newY := playerY prev - speed prev * deltaTime f in
    let '(newX, newIsOnLeftWall, newIsJumping, newJumpProgress) := movePlayer f prev in
    let isGameOver' := Qle_bool newY 0 in
    let newTimeElapsed := timeElapsed prev + deltaTime f in
    {| playerX := newX;
       playerY := newY;
       playerSize := playerSize prev;
       wallWidth := wallWidth prev;
       speed := speed prev;
       isOnLeftWall := newIsOnLeftWall;
       isJumping := newIsJumping;
       jumpProgress := newJumpProgress;
       timeElapsed := newTimeElapsed;
       isGameOver := isGameOver' |}.

Definition gameLoop (time : Q) (w : Window) (random : bool)
    (st : option Q * GameState) : option Q * GameState :=
  let '(deltaTime, previousTimeRef) := frameClock (fst st) time in
  (previousTimeRef, updateGameState (mkFrame w deltaTime random) (snd st)).

Inductive Event : Type :=
| Tick (f : Frame)
| KeyDown (gameState : GameState) (w : option Window) (code : string)
| Click (gameState : GameState) (w : option Window)
| Restart (w : option Window).

Definition step (s : GameState) (e : Event) : GameState :=
  match e with
  | Tick f => updateGameState f s
  | KeyDown gameState w code => handleKeyDown gameState w code s
  | Click gameState w => handleClick gameState w s
  | Restart w => restartGame w
  end.

Definition run (s : GameState) (es : list Event) : GameState := fold_left step es s.

End Climbing.

(** ** The mounted component of the centred variant *)

(** The handlers are registered by an effect that depends on
    [gameState.isJumping] only: they keep the [gameState] of the render that
    registered them until a render in which [isJumping] has another value.
    [current] is the state, [held] the [gameState] of the handlers. *)
Record Component : Type := mkComponent
  { current : GameState;
    held : GameState }.

Definition render (c : Component) (next : GameState) : Component :=
  {| current := next;
     held := if Bool.eqb (isJumping next) (isJumping (held c))
             then held c else next |}.

(** What reaches the component: an animation frame, a key, a click or touch,
    and the button of the game-over dialog. *)
Inductive Input : Type :=
| AnimationFrame (f : Frame)
| KeyPress (w : Window) (code : string)
| Pointer
| PlayAgain (w : option Window).

Definition eventOf (c : Component) (i : Input) : Centered.Event :=
  match i with
  | AnimationFrame f => Centered.Tick f
  | KeyPress w code => Centered.KeyDown (held c) w code
  | Pointer => Centered.Click (held c)
  | PlayAgain w => Centered.Restart w
  end.

Definition dispatch (c : Component) (i : Input) : Component :=
  render c (Centered.step (current c) (eventOf c i)).

Definition mount (w : option Window) : Component :=
  {| current := Centered.initialGameState w;
     held := Centered.initialGameState w |}.

Definition play (c : Component) (inputs : list Input) : Component :=
  fold_left dispatch inputs c.

(** ** Notions used in the statements *)

(** The boxes [(px, py, size, size)] and [obstacle] share an area. *)
Definition overlaps (px py size : Q) (obstacle : Obstacle.t) : Prop :=
  px < Obstacle.x obstacle + Obstacle.width obstacle
  /\ Obstacle.x obstacle < px + size
  /\ py < Obstacle.y obstacle + Obstacle.height obstacle
  /\ Obstacle.y obstacle < py + size.

(** The boxes share an area or at least a boundary point. *)
Definition touches (px py size : Q) (obstacle : Obstacle.t) : Prop :=
  px <= Obstacle.x obstacle + Obstacle.width obstacle
  /\ Obstacle.x obstacle <= px + size
  /\ py <= Obstacle.y obstacle + Obstacle.height obstacle
  /\ Obstacle.y obstacle <= py + size.

(** [s'] differs from [s] at most in [isJumping] and [jumpProgress]. *)
Definition frozen (s s' : GameState) : Prop :=
  playerX s' = playerX s
  /\ playerY s' = playerY s
  /\ playerSize s' = playerSize s
  /\ wallWidth s' = wallWidth s
  /\ speed s' = speed s
  /\ isOnLeftWall s' = isOnLeftWall s
  /\ timeElapsed s' = timeElapsed s
  /\ isGameOver s' = isGameOver s
  /\ obstacles s' = obstacles s
  /\ lastObstacleTime s' = lastObstacleTime s.

(** The range of [jumpProgress]: never negative, and below one in flight. *)
Definition progressInRange (jumping : bool) (progress : Q) : Prop :=
  0 <= progress /\ (jumping = true -> progress < 1).

(** Runs without a restart, and runs whose frames have a non-negative
    [deltaTime]. *)
Definition centeredRestarts (e : Centered.Event) : bool :=
  match e with Centered.Restart _ => true | _ => false end.

Definition loweredRestarts (e : Lowered.Event) : bool :=
  match e with Lowered.Restart _ => true | _ => false end.

Definition centeredForward (e : Centered.Event) : bool :=
  match e with Centered.Tick f => Qle_bool 0 (deltaTime f) | _ => true end.

Definition loweredForward (e : Lowered.Event) : bool :=
  match e with Lowered.Tick f => Qle_bool 0 (deltaTime f) | _ => true end.

Definition climbingForward (e : Climbing.Event) : bool :=
  match e with Climbing.Tick f => Qle_bool 0 (deltaTime f) | _ => true end.

(** The state with other obstacles. *)
Definition withObstacles (s : GameState) (l : list Obstacle.t) : GameState :=
  {| playerX := playerX s;
     playerY := playerY s;
     playerSize := playerSize s;
     wallWidth := wallWidth s;
     speed := speed s;
     isOnLeftWall := isOnLeftWall s;
     isJumping := isJumping s;
     jumpProgress := jumpProgress s;
     timeElapsed := timeElapsed s;
     isGameOver := isGameOver s;
     obstacles := l;
     lastObstacleTime := lastObstacleTime s |}.

(** ** Concrete runs *)

Module Scenario.

Definition desktop : Window := mkWindow 1000 600.

(** A jump in the centred variant, in a window 1000 pixels wide: the player
    leaves the left wall and is over the white line one frame later. *)
Definition start : GameState := Centered.initialGameState (Some desktop).
Definition firstFrame : Centered.Event := Centered.Tick (mkFrame desktop 0 true).
Definition frame : Centered.Event := Centered.Tick (mkFrame desktop (3 # 32) true).
Definition resting : GameState := Centered.run start [firstFrame].
Definition midAir : GameState := Centered.run resting [Centered.Click resting; frame].

(** A fresh jump in a window 200 pixels wide that completes in one long
    frame. *)
Definition narrow : Window := mkWindow 200 600.
Definition narrowResting : GameState :=
  Centered.run (Centered.initialGameState (Some narrow))
    [Centered.Tick (mkFrame narrow 0 true)].
Definition narrowJumping : GameState :=
  Centered.step narrowResting (Centered.Click narrowResting).
Definition longFrame : Frame := mkFrame narrow (1 # 4) true.
Definition narrowLanded : GameState := Centered.updateGameState longFrame narrowJumping.

(** A return jump in that window, on the mounted component: after the first
    frame the player clicks and leaves the left wall; one short frame later
    the space bar is pressed, which the handler, holding the state of the
    take-off, accepts; four short frames later the jump completes. *)
Definition shortFrame : Frame := mkFrame narrow (1 # 16) true.
Definition beforeReturn : Component :=
  play (mount (Some narrow))
    [AnimationFrame (mkFrame narrow 0 true); Pointer; AnimationFrame shortFrame].
Definition afterReturn : Component := dispatch beforeReturn (KeyPress narrow "Space").
Definition returnLanded : Component :=
  play afterReturn
    [AnimationFrame shortFrame; AnimationFrame shortFrame;
     AnimationFrame shortFrame; AnimationFrame shortFrame].

(** An obstacle that reaches the top edge of the resting player. *)
Definition tall : Window := mkWindow 1000 630.
Definition touchingFrame : Frame := mkFrame tall (3 # 2) true.
Definition tallStart : GameState := Centered.initialGameState (Some tall).

(** The same obstacle one short frame later, when it has reached the player
    and ended the run, and a click after that. *)
Definition fallen : Component :=
  play (mount (Some tall))
    [AnimationFrame touchingFrame; AnimationFrame (mkFrame tall (1 # 16) true)].
Definition clickedAfter : Component := dispatch fallen Pointer.

(** The boxes [{x:40, y:300, w:30, h:30}] and [{x:40, y:300, w:80, h:80}]. *)
Definition box : Obstacle.t := Obstacle.mk 40 300 80 80 true.
Definition stillFrame : Frame := mkFrame tall 0 true.
Definition centeredBoxed : GameState := withObstacles tallStart [box].
Definition low : Window := mkWindow 1000 450.
Definition lowFrame : Frame := mkFrame low 0 true.
Definition loweredBoxed : GameState :=
  withObstacles (Lowered.restartGame (Some low)) [box].

(** A window so small that the walls nearly meet, in the lowered variant. *)
Definition tiny : Window := mkWindow 80 500.
Definition tinyStart : GameState := Lowered.initialGameState (Some tiny).
Definition tinyFrame : Frame := mkFrame tiny 2 false.

(** A jump that completes in a quarter of a second. *)
Definition quarter : Centered.Event := Centered.Tick (mkFrame desktop (1 # 4) true).
Definition overshoot : list Centered.Event :=
  [firstFrame; Centered.Click start; quarter].

(** States in which the run has ended, and what the player tries next. *)
Definition crashed : GameState := Centered.updateGameState stillFrame centeredBoxed.
Definition summit : Climbing.GameState :=
  Climbing.updateGameState (mkFrame desktop 10 true)
    (Climbing.initialGameState (Some desktop)).
Definition afterCrash : list Centered.Event :=
  [Centered.Click crashed; frame; Centered.KeyDown crashed desktop "Space"; frame].
Definition afterCrashLowered : list Lowered.Event :=
  [Lowered.Click crashed; Lowered.Tick stillFrame;
   Lowered.KeyDown crashed desktop "Space"; Lowered.Tick stillFrame].

(** The player of [centeredBoxed], in the air. *)
Definition centeredBoxedJumping : GameState := jump centeredBoxed.

End Scenario.

(** ** The time display: [formatTime] of [ScoreDisplay] and [GameOverModal] *)

From Stdlib Require Import ZArith Lia Qround DecimalString.

(** [Math.trunc], and the remainder [a % b] of JavaScript, which takes the
    sign of [a]. *)
Definition Qtruncate (q : Q) : Z :=
  if Qle_bool 0 q then Qfloor q else Qceiling q.

Definition remainder (a b : Q) : Q := a - b * inject_Z (Qtruncate (a / b)).

(** The decimal digits of an integer, with a minus sign when it is negative. *)
Definition decimal (n : Z) : string := NilZero.string_of_int (Z.to_int n).

(** [n.toString()] for an integer [n].  Below 2^53 in absolute value every
    integer is a number of JavaScript and is printed with all its digits;
    beyond that the numbers are rounded and, from 10^21 on, printed with an
    exponent, which this model does not describe: it gives no string there. *)
Definition maxSafe : Z := 9007199254740992.

Definition toString (n : Z) : option string :=
  if (Z.abs n <? maxSafe)%Z then Some (decimal n) else None.

(** [s.padStart(targetLength, fill)]: the fill string is repeated, and cut, to
    the missing length; a string that is long enough is returned as it is. *)
Fixpoint padding (k : nat) (rest fill : string) : string :=
  match k with
  | O => EmptyString
  | S k' =>
      match rest with
      | String c r => String c (padding k' r fill)
      | EmptyString =>
          match fill with
          | String c r => String c (padding k' r fill)
          | EmptyString => EmptyString
          end
      end
  end.

Definition padStart (targetLength : nat) (fill : string) (s : string) : string :=
  append (padding (targetLength - String.length s) fill fill) s.

Definition formatTime (seconds : Q) : option string :=
  let mins := Qfloor (seconds / 60) in
  let secs := Qfloor (remainder seconds 60) in
  match toString mins, toString secs with
  | Some m, Some s => Some (append (padStart 2 "0" m) (append ":" (padStart 2 "0" s)))
  | _, _ => None
  end.

(** The text of [ScoreDisplay], whose [timeElapsed] property defaults to 0. *)
Definition scoreDisplay (timeElapsed : option Q) : option string :=
  formatTime (match timeElapsed with Some t => t | None => 0 end).

(** A number below 100 written with two decimal digits. *)
Definition digit (n : Z) : Ascii.ascii := Ascii.ascii_of_nat (48 + Z.to_nat n).

Definition twoDigits (n : Z) : string :=
  String (digit (n / 10)) (String (digit (n mod 10)) EmptyString).

(** ** The animation loop *)

(** [requestAnimationFrame(gameLoop)] calls [gameLoop] again and again; a call
    is given by its timestamp, the window it finds and the random draw. *)
Definition Call : Type := (Q * Window * bool)%type.

Definition callTime (c : Call) : Q := fst (fst c).

Definition centeredAnimate (calls : list Call) (st : option Q * GameState)
  : option Q * GameState :=
  fold_left (fun st c => Centered.gameLoop (callTime c) (snd (fst c)) (snd c) st)
    calls st.

Definition loweredAnimate (calls : list Call) (st : option Q * GameState)
  : option Q * GameState :=
  fold_left (fun st c => Lowered.gameLoop (callTime c) (snd (fst c)) (snd c) st)
    calls st.

Definition climbingAnimate (calls : list Call) (st : option Q * Climbing.GameState)
  : option Q * Climbing.GameState :=
  fold_left (fun st c => Climbing.gameLoop (callTime c) (snd (fst c)) (snd c) st)
    calls st.

(** The three [gameLoop]s differ in their updater only. *)
Definition gameLoopWith {State : Type} (update : Frame -> State -> State)
    (time : Q) (w : Window) (random : bool) (st : option Q * State)
  : option Q * State :=
  let '(deltaTime, previousTimeRef) := frameClock (fst st) time in
  (previousTimeRef, update (mkFrame w deltaTime random) (snd st)).

Definition animateWith {State : Type} (update : Frame -> State -> State)
    (calls : list Call) (st : option Q * State) : option Q * State :=
  fold_left (fun st c => gameLoopWith update (callTime c) (snd (fst c)) (snd c) st)
    calls st.

(** The timestamps of the calls do not go back, from [t] on. *)
Fixpoint forwardFrom (t : Q) (calls : list Call) : Prop :=
  match calls with
  | [] => True
  | c :: rest => t <= callTime c /\ forwardFrom (callTime c) rest
  end.

Definition clockForward (previousTimeRef : option Q) (calls : list Call) : Prop :=
  match previousTimeRef, calls with
  | Some t, _ => forwardFrom t calls
  | None, c :: rest => forwardFrom (callTime c) rest
  | None, [] => True
  end.

(** Whether a player in the air with progress [p] is still in the air after
    the frames [fs]: each frame adds [deltaTime * 5] to the progress, as the
    updater does, and the jump is over with the first sum that reaches 1. *)
Fixpoint stillFlying (p : Q) (fs : list Frame) : bool :=
  match fs with
  | [] => true
  | f :: rest =>
      let p' := p + deltaTime f * 5 in
      if Qle_bool 1 p' then false else stillFlying p' rest
  end.

(** The progress after the frames [fs], added up frame by frame. *)
Definition progressAfter (p : Q) (fs : list Frame) : Q :=
  fold_left (fun p f => p + deltaTime f * 5) fs p.

(** ** Shapes kept by the runs *)

(** The sizes of the centred variant: the player is 30 wide, the walls 30 or 40,
    every obstacle is a square of 80 and those of the left wall start at 0. *)
Definition centeredObstacleShape (o : Obstacle.t) : Prop :=
  Obstacle.width o = 80
  /\ Obstacle.height o = 80
  /\ (Obstacle.isOnLeftWall o = true -> Obstacle.x o = 0).

Definition centeredShape (s : GameState) : Prop :=
  playerSize s = 30
  /\ speed s = 150
  /\ (wallWidth s = 30 \/ wallWidth s = 40)
  /\ Forall centeredObstacleShape (obstacles s).

(** The sizes of the lowered variant: every obstacle is as wide as the walls of
    the state it is in. *)
Definition loweredObstacleShape (wall : Q) (o : Obstacle.t) : Prop :=
  Obstacle.width o = wall
  /\ Obstacle.height o = 80
  /\ (Obstacle.isOnLeftWall o = true -> Obstacle.x o = 0).

Definition loweredShape (s : GameState) : Prop :=
  playerSize s = 30
  /\ speed s = 150
  /\ (wallWidth s = 30 \/ wallWidth s = 40)
  /\ Forall (loweredObstacleShape (wallWidth s)) (obstacles s).

(** The clock of the obstacles: the last spawn is not in the future. *)
Definition spawnClock (s : GameState) : Prop :=
  0 <= lastObstacleTime s /\ lastObstacleTime s <= timeElapsed s.

(** What every climbing run keeps: the speed, and that the run is over only
    with the player at the top. *)
Definition climbingSummit (c : Climbing.GameState) : Prop :=
  Climbing.speed c = 150
  /\ (Climbing.isGameOver c = true -> Climbing.playerY c <= 0).

(** More concrete states. *)
Module Play.

(** A frame of a fifth of a second and one of a sixteenth. *)
Definition fifth : Frame := mkFrame Scenario.desktop (1 # 5) true.
Definition slice : Frame := mkFrame Scenario.desktop (1 # 16) true.

(** A running game with an obstacle near the bottom and one near the top. *)
Definition low : Obstacle.t := Obstacle.mk 0 690 80 80 true.
Definition high : Obstacle.t := Obstacle.mk 920 10 80 80 false.
Definition busy : GameState := withObstacles Scenario.start [low; high].

(** Three calls of the animation loop, at 1000, 1016 and 1048 milliseconds. *)
Definition calls : list Call :=
  [(1000, Scenario.desktop, true); (1016, Scenario.desktop, false);
   (1048, Scenario.desktop, true)].

(** A climbing run that reaches the top after some frames and a jump. *)
Definition climb : list Climbing.Event :=
  [Climbing.Tick (mkFrame Scenario.desktop 1 true);
   Climbing.Click (Climbing.initialGameState (Some Scenario.desktop))
     (Some Scenario.desktop);
   Climbing.Tick (mkFrame Scenario.desktop 2 true)].

(** The player that has just left the left wall, and the frame that follows. *)
Definition takeOff : GameState :=
  Centered.step Scenario.resting (Centered.Click Scenario.resting).
Definition flight : Frame := mkFrame Scenario.desktop (3 # 32) true.

End Play.

(** * Properties *)

(** ** Numbers and lists *)

Lemma Qlt_bool_iff (a b : Q) : Qlt_bool a b = true <-> a < b.
Proof.
  unfold Qlt_bool. rewrite negb_true_iff. split.
  - intros E. apply Qnot_le_lt. intros L. apply Qle_bool_iff in L. congruence.
  - intros L. destruct (Qle_bool b a) eqn:E; [|reflexivity].
    apply Qle_bool_iff in E. exfalso. exact (Qlt_not_le _ _ L E).
Qed.

Lemma Qlt_bool_false_iff (a b : Q) : Qlt_bool a b = false <-> b <= a.
Proof.
  unfold Qlt_bool. rewrite negb_false_iff. apply Qle_bool_iff.
Qed.

Lemma Qle_bool_false_iff (a b : Q) : Qle_bool a b = false <-> b < a.
Proof.
  rewrite <- Qlt_bool_iff. unfold Qlt_bool. now rewrite negb_true_iff.
Qed.

Lemma collisionLoop_true_iff (hit : Obstacle.t -> bool) (l : list Obstacle.t) :
  collisionLoop hit l = true <-> exists o, In o l /\ hit o = true.
Proof.
  induction l as [|o l IH]; simpl.
  - split; [discriminate | intros [o [[] _]]].
  - destruct (hit o) eqn:E.
    + split; [|reflexivity]. intros _. exists o. auto.
    + rewrite IH. split.
      * intros [o' [I H]]. exists o'. auto.
      * intros [o' [[<- | I] H]]; [congruence|]. exists o'. auto.
Qed.

(** ** What the updaters write into each field *)

Lemma centered_update_alive (f : Frame) (s : GameState) :
  isGameOver s = false ->
  Centered.updateGameState f s =
  let newY := innerHeight (window f) / 2 - playerSize s / 2 in
  let mv := Centered.movePlayer f s in
  let newX := fst (fst (fst mv)) in
  let newTimeElapsed := timeElapsed s + deltaTime f in
  let newObstacles :=
    advanceObstacles f (Centered.spawnObstacles f newTimeElapsed s) in
  {| playerX := newX;
     playerY := newY;
     playerSize := playerSize s;
     wallWidth := wallWidth s;
     speed := speed s;
     isOnLeftWall := snd (fst (fst mv));
     isJumping := snd (fst mv);
     jumpProgress := snd mv;
     timeElapsed := newTimeElapsed;
     isGameOver := collisionLoop (Centered.hits s newX newY) newObstacles;
     obstacles := newObstacles;
     lastObstacleTime :=
       if Centered.shouldSpawn newTimeElapsed s then newTimeElapsed
       else lastObstacleTime s |}.
Proof.
  intros A. unfold Centered.updateGameState. rewrite A.
  destruct (Centered.movePlayer f s) as [[[newX newL] newJ] newP]. reflexivity.
Qed.

Lemma lowered_update_alive (f : Frame) (s : GameState) :
  isGameOver s = false ->
  Lowered.updateGameState f s =
  let newY := innerHeight (window f) * (7 # 10) - playerSize s / 2 in
  let mv := Lowered.movePlayer f s in
  let newX := fst (fst (fst mv)) in
  let newTimeElapsed := timeElapsed s + deltaTime f in
  let newObstacles :=
    advanceObstacles f (Lowered.spawnObstacles f newTimeElapsed s) in
  {| playerX := newX;
     playerY := newY;
     playerSize := playerSize s;
     wallWidth := wallWidth s;
     speed := speed s;
     isOnLeftWall := snd (fst (fst mv));
     isJumping := snd (fst mv);
     jumpProgress := snd mv;
     timeElapsed := newTimeElapsed;
     isGameOver := collisionLoop (Lowered.hits s newX newY) newObstacles;
     obstacles := newObstacles;
     lastObstacleTime :=
       if Lowered.shouldSpawn newTimeElapsed s then newTimeElapsed
       else lastObstacleTime s |}.
Proof.
  intros A. unfold Lowered.updateGameState. rewrite A.
  destruct (Lowered.movePlayer f s) as [[[newX newL] newJ] newP]. reflexivity.
Qed.

Lemma climbing_update_alive (f : Frame) (s : Climbing.GameState) :
  Climbing.isGameOver s = false ->
  Climbing.updateGameState f s =
  let newY := Climbing.playerY s - Climbing.speed s * deltaTime f in
  let mv := Climbing.movePlayer f s in
  {| Climbing.playerX := fst (fst (fst mv));
     Climbing.playerY := newY;
     Climbing.playerSize := Climbing.playerSize s;
     Climbing.wallWidth := Climbing.wallWidth s;
     Climbing.speed := Climbing.speed s;
     Climbing.isOnLeftWall := snd (fst (fst mv));
     Climbing.isJumping := snd (fst mv);
     Climbing.jumpProgress := snd mv;
     Climbing.timeElapsed := Climbing.timeElapsed s + deltaTime f;
     Climbing.isGameOver := Qle_bool newY 0 |}.
Proof.
  intros A. unfold Climbing.updateGameState. rewrite A.
  destruct (Climbing.movePlayer f s) as [[[newX newL] newJ] newP]. reflexivity.
Qed.

(** ** Game over is terminal *)

Lemma centered_game_over_fixed (f : Frame) (s : GameState) :
  isGameOver s = true -> Centered.updateGameState f s = s.
Proof. intros A. unfold Centered.updateGameState. now rewrite A. Qed.

Lemma lowered_game_over_fixed (f : Frame) (s : GameState) :
  isGameOver s = true -> Lowered.updateGameState f s = s.
Proof. intros A. unfold Lowered.updateGameState. now rewrite A. Qed.

Lemma climbing_game_over_fixed (f : Frame) (c : Climbing.GameState) :
  Climbing.isGameOver c = true -> Climbing.updateGameState f c = c.
Proof. intros A. unfold Climbing.updateGameState. now rewrite A. Qed.

Lemma centered_ticks_fixed (fs : list Frame) (s : GameState) :
  isGameOver s = true -> Centered.run s (map Centered.Tick fs) = s.
Proof.
  intros A. induction fs as [|f fs IH]; [reflexivity|].
  cbn. now rewrite centered_game_over_fixed.
Qed.

Lemma lowered_ticks_fixed (fs : list Frame) (s : GameState) :
  isGameOver s = true -> Lowered.run s (map Lowered.Tick fs) = s.
Proof.
  intros A. induction fs as [|f fs IH]; [reflexivity|].
  cbn. now rewrite lowered_game_over_fixed.
Qed.

Lemma climbing_ticks_fixed (fs : list Frame) (c : Climbing.GameState) :
  Climbing.isGameOver c = true -> Climbing.run c (map Climbing.Tick fs) = c.
Proof.
  intros A. induction fs as [|f fs IH]; [reflexivity|].
  cbn. now rewrite climbing_game_over_fixed.
Qed.

Lemma frozen_refl (s : GameState) : frozen s s.
Proof. unfold frozen. tauto. Qed.

Lemma frozen_trans (s1 s2 s3 : GameState) :
  frozen s1 s2 -> frozen s2 s3 -> frozen s1 s3.
Proof. unfold frozen. intuition congruence. Qed.

Lemma frozen_set_jump (s : GameState) (j : bool) (p : Q) : frozen s (set_jump s j p).
Proof. unfold frozen. simpl. tauto. Qed.

Lemma centered_step_frozen (s : GameState) (e : Centered.Event) :
  isGameOver s = true -> centeredRestarts e = false -> frozen s (Centered.step s e).
Proof.
  intros A R. destruct e as [f | g w code | g | w]; simpl in *.
  - rewrite centered_game_over_fixed by assumption. apply frozen_refl.
  - unfold Centered.handleKeyDown.
    destruct (String.eqb code "Space"), (negb (isJumping g)),
      (Centered.inWhiteLine w 100 g);
      try apply frozen_refl; apply frozen_set_jump.
  - unfold Centered.handleClick.
    destruct (negb (isJumping g)); [apply frozen_set_jump | apply frozen_refl].
  - discriminate.
Qed.

Lemma lowered_step_frozen (s : GameState) (e : Lowered.Event) :
  isGameOver s = true -> loweredRestarts e = false -> frozen s (Lowered.step s e).
Proof.
  intros A R. destruct e as [f | g w code | g | w]; simpl in *.
  - rewrite lowered_game_over_fixed by assumption. apply frozen_refl.
  - unfold Lowered.handleKeyDown.
    destruct (String.eqb code "Space"), (negb (isJumping g)),
      (Lowered.inWhiteLine w 20 g);
      try apply frozen_refl; apply frozen_set_jump.
  - unfold Lowered.handleClick.
    destruct (negb (isJumping g)); [apply frozen_set_jump | apply frozen_refl].
  - discriminate.
Qed.

Lemma centered_run_frozen (es : list Centered.Event) (s : GameState) :
  isGameOver s = true -> existsb centeredRestarts es = false ->
  frozen s (Centered.run s es).
Proof.
  revert s. induction es as [|e es IH]; intros s A R.
  - apply frozen_refl.
  - simpl in R. apply orb_false_iff in R. destruct R as [Re Res].
    pose proof (centered_step_frozen s e A Re) as F.
    apply frozen_trans with (Centered.step s e); [exact F|].
    apply IH; [|exact Res].
    destruct F as (_ & _ & _ & _ & _ & _ & _ & G & _). congruence.
Qed.

Lemma lowered_run_frozen (es : list Lowered.Event) (s : GameState) :
  isGameOver s = true -> existsb loweredRestarts es = false ->
  frozen s (Lowered.run s es).
Proof.
  revert s. induction es as [|e es IH]; intros s A R.
  - apply frozen_refl.
  - simpl in R. apply orb_false_iff in R. destruct R as [Re Res].
    pose proof (lowered_step_frozen s e A Re) as F.
    apply frozen_trans with (Lowered.step s e); [exact F|].
    apply IH; [|exact Res].
    destruct F as (_ & _ & _ & _ & _ & _ & _ & G & _). congruence.
Qed.

(** C3, as amended. Once [isGameOver] is true the updater of every variant
    returns the state it was given, so any number of frames leaves the state
    as it is; and in the side-to-side variants no run of frames, key presses
    and clicks without a restart changes the position, the wall, the elapsed
    time, the obstacles, the time of the last spawn or the game-over flag. *)
Theorem game_over_is_terminal
    (s : GameState) (c : Climbing.GameState) (fs : list Frame)
    (ea : list Centered.Event) (eb : list Lowered.Event) :
  isGameOver s = true ->
  Climbing.isGameOver c = true ->
  existsb centeredRestarts ea = false ->
  existsb loweredRestarts eb = false ->
  (forall f, Centered.updateGameState f s = s
             /\ Lowered.updateGameState f s = s
             /\ Climbing.updateGameState f c = c)
  /\ Centered.run s (map Centered.Tick fs) = s
  /\ Lowered.run s (map Lowered.Tick fs) = s
  /\ Climbing.run c (map Climbing.Tick fs) = c
  /\ frozen s (Centered.run s ea)
  /\ frozen s (Lowered.run s eb).
Proof.
  intros A C Ra Rb.
  split; [intros f; repeat split|split; [|split; [|split; [|split]]]].
  - now apply centered_game_over_fixed.
  - now apply lowered_game_over_fixed.
  - now apply climbing_game_over_fixed.
  - now apply centered_ticks_fixed.
  - now apply lowered_ticks_fixed.
  - now apply climbing_ticks_fixed.
  - now apply centered_run_frozen.
  - now apply lowered_run_frozen.
Qed.

Lemma game_over_is_terminal_witness :
  Centered.run Scenario.crashed
    (map Centered.Tick [Scenario.stillFrame; Scenario.touchingFrame]) = Scenario.crashed
  /\ Climbing.updateGameState Scenario.stillFrame Scenario.summit = Scenario.summit
  /\ frozen Scenario.crashed (Centered.run Scenario.crashed Scenario.afterCrash)
  /\ frozen Scenario.crashed (Lowered.run Scenario.crashed Scenario.afterCrashLowered).
Proof.
  pose proof (game_over_is_terminal Scenario.crashed Scenario.summit
                [Scenario.stillFrame; Scenario.touchingFrame]
                Scenario.afterCrash Scenario.afterCrashLowered
                eq_refl eq_refl eq_refl eq_refl) as T.
  destruct T as (T1 & T2 & _ & _ & T5 & T6).
  split; [exact T2|]. split; [apply (T1 Scenario.stillFrame)|]. split; assumption.
Defined.

(** C3, as stated, fails for the inputs of the centred variant, whose [jump]
    does not look at [isGameOver]: after the obstacle has ended the run, a
    click sets [isJumping], so the state has changed without a restart. *)
Lemma click_after_game_over_starts_a_jump :
  let s := current Scenario.fallen in
  let s' := current Scenario.clickedAfter in
  isGameOver s = true
  /\ isJumping s = false
  /\ isJumping (held Scenario.fallen) = false
  /\ s' = jump s
  /\ isJumping s' = true
  /\ isGameOver s' = true
  /\ s' <> s.
Proof.
  repeat split. intros E. apply (f_equal isJumping) in E. discriminate E.
Qed.

(** ** Collisions *)

Ltac qdecide :=
  first [ apply Qlt_bool_iff; vm_compute; reflexivity
        | apply Qle_bool_iff; vm_compute; reflexivity
        | apply Qeq_bool_iff; vm_compute; reflexivity ].

Lemma centered_hits_iff (s : GameState) (px py : Q) (o : Obstacle.t) :
  Centered.hits s px py o = true <->
  Obstacle.isOnLeftWall o = isOnLeftWall s
  /\ isJumping s = false
  /\ overlaps px py (playerSize s) o.
Proof.
  unfold Centered.hits, overlaps.
  destruct (isOnLeftWall s), (Obstacle.isOnLeftWall o), (isJumping s); simpl;
    rewrite ?andb_true_iff, ?Qlt_bool_iff;
    intuition (try discriminate).
Qed.

Lemma lowered_hits_iff (s : GameState) (px py : Q) (o : Obstacle.t) :
  Lowered.hits s px py o = true <-> touches px py (playerSize s) o.
Proof.
  unfold Lowered.hits, touches.
  rewrite ?andb_true_iff, ?Qle_bool_iff. tauto.
Qed.

Lemma centered_game_over_iff (f : Frame) (s : GameState) :
  isGameOver s = false ->
  let s' := Centered.updateGameState f s in
  isGameOver s' = true <->
  exists o, In o (obstacles s')
            /\ Obstacle.isOnLeftWall o = isOnLeftWall s
            /\ isJumping s = false
            /\ overlaps (playerX s') (playerY s') (playerSize s') o.
Proof.
  intros A. rewrite (centered_update_alive f s A). cbn.
  rewrite collisionLoop_true_iff.
  split; intros [o [I H]]; exists o; (split; [exact I|]);
    now apply centered_hits_iff.
Qed.

Lemma lowered_game_over_iff (f : Frame) (s : GameState) :
  isGameOver s = false ->
  let s' := Lowered.updateGameState f s in
  isGameOver s' = true <->
  exists o, In o (obstacles s')
            /\ touches (playerX s') (playerY s') (playerSize s') o.
Proof.
  intros A. rewrite (lowered_update_alive f s A). cbn.
  rewrite collisionLoop_true_iff.
  split; intros [o [I H]]; exists o; (split; [exact I|]);
    now apply lowered_hits_iff.
Qed.

Lemma centered_resting_keeps_wall (f : Frame) (s : GameState) :
  isJumping s = false ->
  isOnLeftWall (Centered.updateGameState f s) = isOnLeftWall s.
Proof.
  intros J. destruct (isGameOver s) eqn:A.
  - now rewrite centered_game_over_fixed.
  - rewrite (centered_update_alive f s A). cbn.
    unfold Centered.movePlayer. now rewrite J.
Qed.

(** An obstacle on the other wall cannot end the run of the centred variant. *)
Lemma centered_other_wall_is_harmless (f : Frame) (s : GameState) :
  isGameOver s = false ->
  (forall o, In o (obstacles (Centered.updateGameState f s)) ->
             Obstacle.isOnLeftWall o <> isOnLeftWall s) ->
  isGameOver (Centered.updateGameState f s) = false.
Proof.
  intros A O. destruct (isGameOver (Centered.updateGameState f s)) eqn:E;
    [|reflexivity].
  apply (centered_game_over_iff f s A) in E. destruct E as (o & I & W & _).
  now destruct (O o I).
Qed.

(** C2, as amended. In the centred variant a frame ends the run only through an
    obstacle on the player's own wall: whenever the updater sets [isGameOver],
    the player was resting and one of the obstacles of the new state is on the
    player's wall and overlaps the player's box. *)
Theorem centered_hit_is_on_the_players_wall (f : Frame) (s : GameState) :
  isGameOver s = false ->
  isGameOver (Centered.updateGameState f s) = true ->
  let s' := Centered.updateGameState f s in
  exists o, In o (obstacles s')
            /\ Obstacle.isOnLeftWall o = isOnLeftWall s
            /\ Obstacle.isOnLeftWall o = isOnLeftWall s'
            /\ isJumping s = false
            /\ overlaps (playerX s') (playerY s') (playerSize s') o.
Proof.
  intros A E s'. apply (centered_game_over_iff f s A) in E.
  destruct E as (o & I & W & J & V). exists o.
  split; [exact I|]. split; [exact W|]. split; [|split; assumption].
  unfold s'. now rewrite centered_resting_keeps_wall.
Qed.

Lemma centered_hit_is_on_the_players_wall_witness :
  exists o, In o (obstacles Scenario.crashed)
            /\ Obstacle.isOnLeftWall o = isOnLeftWall Scenario.centeredBoxed
            /\ Obstacle.isOnLeftWall o = isOnLeftWall Scenario.crashed
            /\ isJumping Scenario.centeredBoxed = false
            /\ overlaps (playerX Scenario.crashed) (playerY Scenario.crashed)
                 (playerSize Scenario.crashed) o.
Proof.
  exact (centered_hit_is_on_the_players_wall Scenario.stillFrame
           Scenario.centeredBoxed eq_refl eq_refl).
Defined.

(** C2, as stated, fails in the lowered variant, whose collision loop looks at
    no wall: in a window 80 pixels wide the resting player on the left wall is
    hit by an obstacle of the right wall. *)
Lemma lowered_hit_from_the_other_wall :
  let s := Scenario.tinyStart in
  let s' := Lowered.updateGameState Scenario.tinyFrame s in
  s = Lowered.run (Lowered.initialGameState (Some Scenario.tiny)) []
  /\ isGameOver s = false
  /\ isJumping s = false
  /\ isOnLeftWall s = true
  /\ isOnLeftWall s' = true
  /\ (forall o, In o (obstacles s') -> Obstacle.isOnLeftWall o = false)
  /\ isGameOver s' = true.
Proof.
  repeat split.
  intros o [<- | []]. reflexivity.
Qed.

(** A second run of the lowered variant, in a window of ordinary size: the
    player leaves the left wall and is hit, on the frame of the landing, by an
    obstacle of the right wall whose edge the landing position touches. *)
Lemma lowered_landing_hit :
  let w := Scenario.desktop in
  let o := Obstacle.mk 970 300 30 80 false in
  let s := jump (withObstacles (Lowered.initialGameState (Some w)) [o]) in
  let s' := Lowered.updateGameState (mkFrame w (1 # 2) true) s in
  isGameOver s = false
  /\ isOnLeftWall s = true
  /\ isGameOver s' = true
  /\ playerX s' + playerSize s' == Obstacle.x o.
Proof.
  repeat split.
Qed.

(** C10. In the centred variant a frame that starts with the player in the air
    leaves [isGameOver] as it was, whatever the obstacles are. *)
Theorem jumping_player_is_never_hit (f : Frame) (s : GameState) :
  isJumping s = true ->
  isGameOver (Centered.updateGameState f s) = isGameOver s.
Proof.
  intros J. destruct (isGameOver s) eqn:A.
  - rewrite centered_game_over_fixed; assumption.
  - destruct (isGameOver (Centered.updateGameState f s)) eqn:E; [|reflexivity].
    apply (centered_game_over_iff f s A) in E.
    destruct E as (o & _ & _ & J' & _). congruence.
Qed.

Lemma jumping_player_is_never_hit_witness :
  isGameOver (Centered.updateGameState Scenario.stillFrame Scenario.centeredBoxedJumping)
  = false
  /\ isGameOver (Centered.updateGameState Scenario.stillFrame Scenario.centeredBoxed)
     = true.
Proof.
  split.
  - exact (jumping_player_is_never_hit Scenario.stillFrame
             Scenario.centeredBoxedJumping eq_refl).
  - reflexivity.
Defined.

(** C4, as amended. On a frame that starts with the game running, an obstacle
    of the new state whose box overlaps the player's box ends the run: in the
    centred variant when the player is resting, the obstacle is on the player's
    wall and the boxes share an area; in the lowered variant for any obstacle
    whose box shares an area or merely an edge with the player's. *)
Theorem overlap_ends_the_run (f : Frame) (s : GameState) (o : Obstacle.t) :
  isGameOver s = false ->
  (let s' := Centered.updateGameState f s in
   isJumping s = false ->
   In o (obstacles s') ->
   Obstacle.isOnLeftWall o = isOnLeftWall s' ->
   overlaps (playerX s') (playerY s') (playerSize s') o ->
   isGameOver s' = true)
  /\
  (let s' := Lowered.updateGameState f s in
   In o (obstacles s') ->
   touches (playerX s') (playerY s') (playerSize s') o ->
   isGameOver s' = true).
Proof.
  intros A. split.
  - intros s' J I W V. apply (centered_game_over_iff f s A). exists o.
    repeat split; try assumption; try apply V.
    unfold s' in W. now rewrite centered_resting_keeps_wall in W.
  - intros s' I V. apply (lowered_game_over_iff f s A). exists o. now split.
Qed.

(** The boxes [{x:40, y:300, w:30, h:30}] and [{x:40, y:300, w:80, h:80}] on the
    same wall end the run in both side-to-side variants. *)
Lemma overlap_ends_the_run_witness :
  let a := Centered.updateGameState Scenario.stillFrame Scenario.centeredBoxed in
  let b := Lowered.updateGameState Scenario.lowFrame Scenario.loweredBoxed in
  (playerX a == 40 /\ playerY a == 300 /\ playerSize a == 30
   /\ obstacles a = [Scenario.box] /\ isGameOver a = true)
  /\ (playerX b == 40 /\ playerY b == 300 /\ playerSize b == 30
      /\ isGameOver b = true).
Proof.
  intros a b.
  assert (A : isGameOver a = true).
  { apply (overlap_ends_the_run Scenario.stillFrame Scenario.centeredBoxed
             Scenario.box eq_refl); try reflexivity.
    - now left.
    - unfold overlaps. repeat split; qdecide. }
  assert (B : isGameOver b = true).
  { apply (overlap_ends_the_run Scenario.lowFrame Scenario.loweredBoxed
             Scenario.box eq_refl).
    - now left.
    - unfold touches. repeat split; qdecide. }
  split.
  - split; [qdecide|]. split; [qdecide|]. split; [qdecide|].
    split; [reflexivity | exact A].
  - split; [qdecide|]. split; [qdecide|]. split; [qdecide | exact B].
Defined.

(** C4, as stated, fails in the centred variant, whose comparisons are strict:
    after a frame of a second and a half the first obstacle, on the player's
    wall, has its bottom edge at the height of the top edge of the resting
    player, and the game goes on. *)
Lemma centered_edge_touch_is_no_hit :
  let s := Scenario.tallStart in
  let s' := Centered.updateGameState Scenario.touchingFrame s in
  isGameOver s = false
  /\ isJumping s = false
  /\ (exists o, In o (obstacles s')
                /\ Obstacle.isOnLeftWall o = isOnLeftWall s'
                /\ touches (playerX s') (playerY s') (playerSize s') o
                /\ Obstacle.y o + Obstacle.height o == playerY s')
  /\ isGameOver s' = false.
Proof.
  repeat split.
  eexists. split; [now left|]. split; [reflexivity|].
  split; [unfold touches; repeat split; qdecide | reflexivity].
Qed.

(** ** Elapsed time and the spawn schedule *)

Lemma obstacleSpawnRate_floor (t : Q) : minSpawnRate <= obstacleSpawnRate t.
Proof. unfold obstacleSpawnRate. apply Q.le_max_l. Qed.

Lemma obstacleSpawnRate_antitone (t1 t2 : Q) :
  t1 <= t2 -> obstacleSpawnRate t2 <= obstacleSpawnRate t1.
Proof.
  intros L. unfold obstacleSpawnRate, minSpawnRate, baseSpawnRate, timeSpeedupFactor.
  destruct (Q.max_spec (3 # 10) ((3 # 2) - t1 * (1 # 10))) as [[? E1] | [? E1]];
  destruct (Q.max_spec (3 # 10) ((3 # 2) - t2 * (1 # 10))) as [[? E2] | [? E2]];
    rewrite E1, E2; lra.
Qed.

Lemma obstacleSpawnRate_late (t : Q) : 12 <= t -> obstacleSpawnRate t == 3 # 10.
Proof.
  intros L. unfold obstacleSpawnRate, minSpawnRate, baseSpawnRate, timeSpeedupFactor.
  destruct (Q.max_spec (3 # 10) ((3 # 2) - t * (1 # 10))) as [[? E] | [? E]];
    rewrite E; lra.
Qed.

Lemma centered_spawn (f : Frame) (s : GameState) :
  isGameOver s = false ->
  let now := timeElapsed s + deltaTime f in
  let s' := Centered.updateGameState f s in
  (obstacleSpawnRate now < now - lastObstacleTime s ->
   Centered.spawnObstacles f now s = obstacles s ++ [Centered.newObstacle f]
   /\ obstacles s' = advanceObstacles f (obstacles s ++ [Centered.newObstacle f])
   /\ lastObstacleTime s' = now)
  /\ (~ obstacleSpawnRate now < now - lastObstacleTime s ->
      Centered.spawnObstacles f now s = obstacles s
      /\ obstacles s' = advanceObstacles f (obstacles s)
      /\ lastObstacleTime s' = lastObstacleTime s).
Proof.
  intros A now s'. unfold s'. rewrite (centered_update_alive f s A). cbn.
  fold now. unfold Centered.spawnObstacles, Centered.shouldSpawn.
  split; intros L.
  - apply Qlt_bool_iff in L. rewrite L. auto.
  - destruct (Qlt_bool (obstacleSpawnRate now) (now - lastObstacleTime s)) eqn:E.
    + apply Qlt_bool_iff in E. contradiction.
    + auto.
Qed.

Lemma lowered_spawn (f : Frame) (s : GameState) :
  isGameOver s = false ->
  let now := timeElapsed s + deltaTime f in
  let s' := Lowered.updateGameState f s in
  (obstacleSpawnRate now < now - lastObstacleTime s ->
   Lowered.spawnObstacles f now s = obstacles s ++ [Lowered.newObstacle f s]
   /\ obstacles s' = advanceObstacles f (obstacles s ++ [Lowered.newObstacle f s])
   /\ lastObstacleTime s' = now)
  /\ (~ obstacleSpawnRate now < now - lastObstacleTime s ->
      Lowered.spawnObstacles f now s = obstacles s
      /\ obstacles s' = advanceObstacles f (obstacles s)
      /\ lastObstacleTime s' = lastObstacleTime s).
Proof.
  intros A now s'. unfold s'. rewrite (lowered_update_alive f s A). cbn.
  fold now. unfold Lowered.spawnObstacles, Lowered.shouldSpawn.
  split; intros L.
  - apply Qlt_bool_iff in L. rewrite L. auto.
  - destruct (Qlt_bool (obstacleSpawnRate now) (now - lastObstacleTime s)) eqn:E.
    + apply Qlt_bool_iff in E. contradiction.
    + auto.
Qed.

(** C5. The spawn interval of a frame is [max(0.3, 1.5 - t * 0.1)] at the new
    elapsed time [t]: it does not grow with [t], is 1.5 at 0, 0.3 at 12 and 0.3
    from then on.  When the time since the last spawn exceeds it, the updater
    pushes exactly one obstacle before it moves and culls the obstacles, and
    sets [lastObstacleTime] to the new elapsed time; otherwise it pushes none
    and leaves [lastObstacleTime] alone. *)
Theorem spawn_interval_schedule (f : Frame) (s : GameState) (t1 t2 : Q) :
  isGameOver s = false ->
  t1 <= t2 ->
  let now := timeElapsed s + deltaTime f in
  let interval := Qmax (3 # 10) ((3 # 2) - now * (1 # 10)) in
  let a := Centered.updateGameState f s in
  let b := Lowered.updateGameState f s in
  obstacleSpawnRate now = interval
  /\ timeElapsed a = now /\ timeElapsed b = now
  /\ obstacleSpawnRate t2 <= obstacleSpawnRate t1
  /\ 3 # 10 <= obstacleSpawnRate t1
  /\ obstacleSpawnRate 0 == 3 # 2
  /\ obstacleSpawnRate 12 == 3 # 10
  /\ (12 <= t1 -> obstacleSpawnRate t1 == 3 # 10)
  /\ (interval < now - lastObstacleTime s ->
      (Centered.spawnObstacles f now s = obstacles s ++ [Centered.newObstacle f]
       /\ obstacles a = advanceObstacles f (obstacles s ++ [Centered.newObstacle f])
       /\ lastObstacleTime a = now)
      /\ (Lowered.spawnObstacles f now s = obstacles s ++ [Lowered.newObstacle f s]
          /\ obstacles b = advanceObstacles f (obstacles s ++ [Lowered.newObstacle f s])
          /\ lastObstacleTime b = now))
  /\ (~ interval < now - lastObstacleTime s ->
      (Centered.spawnObstacles f now s = obstacles s
       /\ obstacles a = advanceObstacles f (obstacles s)
       /\ lastObstacleTime a = lastObstacleTime s)
      /\ (Lowered.spawnObstacles f now s = obstacles s
          /\ obstacles b = advanceObstacles f (obstacles s)
          /\ lastObstacleTime b = lastObstacleTime s)).
Proof.
  intros A L now interval a b.
  split; [reflexivity|].
  split; [unfold a; now rewrite (centered_update_alive f s A)|].
  split; [unfold b; now rewrite (lowered_update_alive f s A)|].
  split; [now apply obstacleSpawnRate_antitone|].
  split; [apply (obstacleSpawnRate_floor t1)|].
  split; [qdecide|]. split; [qdecide|].
  split; [apply obstacleSpawnRate_late|].
  split; intros S.
  - split; [apply (centered_spawn f s A) | apply (lowered_spawn f s A)]; exact S.
  - split; [apply (centered_spawn f s A) | apply (lowered_spawn f s A)]; exact S.
Qed.

(** The first frame of a long pause spawns one obstacle, a short frame right
    after it spawns none. *)
Lemma spawn_interval_schedule_witness :
  let s := Scenario.tallStart in
  let s' := Centered.updateGameState Scenario.touchingFrame s in
  (List.length (obstacles s') = 1%nat /\ lastObstacleTime s' == 3 # 2)
  /\ (obstacles (Centered.updateGameState Scenario.stillFrame s')
      = advanceObstacles Scenario.stillFrame (obstacles s')).
Proof.
  intros s s'.
  pose proof (spawn_interval_schedule Scenario.touchingFrame s 0 1 eq_refl) as T.
  pose proof (spawn_interval_schedule Scenario.stillFrame s' 0 1 eq_refl) as U.
  split.
  - destruct T as (_ & _ & _ & _ & _ & _ & _ & _ & T & _); [discriminate|].
    destruct T as [(_ & To & Tl) _]; [qdecide|].
    unfold s'. split; [rewrite To; reflexivity | rewrite Tl; qdecide].
  - destruct U as (_ & _ & _ & _ & _ & _ & _ & _ & _ & U); [discriminate|].
    destruct U as [(_ & Uo & _) _]; [|exact Uo].
    intros H. apply Qlt_bool_iff in H. discriminate H.
Defined.

(** C9, as amended. A frame applied to a running game sets the elapsed time to
    the sum of the elapsed time and [deltaTime], in every variant, and the
    elapsed time does not decrease when [deltaTime] is not negative. *)
Theorem elapsed_time_advances_by_delta
    (f : Frame) (s : GameState) (c : Climbing.GameState) :
  isGameOver s = false ->
  Climbing.isGameOver c = false ->
  let a := Centered.updateGameState f s in
  let b := Lowered.updateGameState f s in
  let d := Climbing.updateGameState f c in
  (timeElapsed a = timeElapsed s + deltaTime f
   /\ timeElapsed b = timeElapsed s + deltaTime f
   /\ Climbing.timeElapsed d = Climbing.timeElapsed c + deltaTime f)
  /\ (0 <= deltaTime f ->
      timeElapsed s <= timeElapsed a
      /\ timeElapsed s <= timeElapsed b
      /\ Climbing.timeElapsed c <= Climbing.timeElapsed d).
Proof.
  intros A C a b d. unfold a, b, d.
  rewrite (centered_update_alive f s A), (lowered_update_alive f s A),
    (climbing_update_alive f c C). cbn.
  repeat split; lra.
Qed.

Lemma elapsed_time_advances_by_delta_witness :
  timeElapsed (Centered.updateGameState Scenario.touchingFrame Scenario.tallStart)
  = timeElapsed Scenario.tallStart + (3 # 2)
  /\ timeElapsed Scenario.tallStart
     <= timeElapsed (Centered.updateGameState Scenario.touchingFrame Scenario.tallStart).
Proof.
  pose proof (elapsed_time_advances_by_delta Scenario.touchingFrame
                Scenario.tallStart (Climbing.initialGameState None)
                eq_refl eq_refl) as ((E & _) & S).
  split; [exact E|]. apply S. discriminate.
Defined.

(** C9, as stated, fails on a frame with [deltaTime = 0], such as the first
    frame of every run: the elapsed time does not increase. *)
Lemma still_frame_does_not_advance_time :
  let f := Scenario.stillFrame in
  let s := Scenario.tallStart in
  0 <= deltaTime f
  /\ isGameOver s = false
  /\ ~ timeElapsed s < timeElapsed (Centered.updateGameState f s)
  /\ ~ timeElapsed s < timeElapsed (Lowered.updateGameState f s)
  /\ ~ Climbing.timeElapsed (Climbing.initialGameState None)
       < Climbing.timeElapsed
           (Climbing.updateGameState f (Climbing.initialGameState None)).
Proof.
  split; [discriminate|]. split; [reflexivity|].
  repeat split; intros H; apply Qlt_bool_iff in H; discriminate H.
Qed.

(** ** The range of the jump progress *)

Lemma centered_move_range (f : Frame) (s : GameState) :
  0 <= deltaTime f ->
  progressInRange (isJumping s) (jumpProgress s) ->
  progressInRange (snd (fst (Centered.movePlayer f s))) (snd (Centered.movePlayer f s)).
Proof.
  intros D [P0 P1]. unfold Centered.movePlayer.
  destruct (isJumping s) eqn:J; [|split; simpl; [exact P0 | congruence]].
  destruct (Qle_bool 1 (jumpProgress s + deltaTime f * 5)) eqn:E; simpl.
  - split; [lra | discriminate].
  - apply Qle_bool_false_iff in E. split; [lra | intros _; exact E].
Qed.

Lemma lowered_move_range (f : Frame) (s : GameState) :
  0 <= deltaTime f ->
  progressInRange (isJumping s) (jumpProgress s) ->
  progressInRange (snd (fst (Lowered.movePlayer f s))) (snd (Lowered.movePlayer f s)).
Proof.
  intros D [P0 P1]. unfold Lowered.movePlayer.
  destruct (isJumping s) eqn:J; [|split; simpl; [exact P0 | congruence]].
  destruct (Qle_bool 1 (jumpProgress s + deltaTime f * (5 # 2))) eqn:E; simpl.
  - split; [lra | discriminate].
  - apply Qle_bool_false_iff in E. split; [lra | intros _; exact E].
Qed.

Lemma climbing_move_range (f : Frame) (c : Climbing.GameState) :
  0 <= deltaTime f ->
  progressInRange (Climbing.isJumping c) (Climbing.jumpProgress c) ->
  progressInRange (snd (fst (Climbing.movePlayer f c))) (snd (Climbing.movePlayer f c)).
Proof.
  intros D [P0 P1]. unfold Climbing.movePlayer.
  destruct (Climbing.isJumping c) eqn:J; [|split; simpl; [exact P0 | congruence]].
  destruct (Qle_bool 1 (Climbing.jumpProgress c + deltaTime f * 5)) eqn:E; simpl.
  - split; [lra | discriminate].
  - apply Qle_bool_false_iff in E. split; [lra | intros _; exact E].
Qed.

Lemma progressInRange_start : progressInRange true 0.
Proof. split; [lra | intros _; lra]. Qed.

Lemma progressInRange_rest : progressInRange false 0.
Proof. split; [lra | discriminate]. Qed.

Lemma centered_step_range (s : GameState) (e : Centered.Event) :
  centeredForward e = true ->
  progressInRange (isJumping s) (jumpProgress s) ->
  progressInRange (isJumping (Centered.step s e)) (jumpProgress (Centered.step s e)).
Proof.
  intros D P. destruct e as [f | g w code | g | w]; simpl in *.
  - destruct (isGameOver s) eqn:A.
    + now rewrite centered_game_over_fixed.
    + rewrite (centered_update_alive f s A). cbn.
      apply centered_move_range; [now apply Qle_bool_iff | exact P].
  - unfold Centered.handleKeyDown.
    destruct (String.eqb code "Space"), (negb (isJumping g)),
      (Centered.inWhiteLine w 100 g);
      try exact P; apply progressInRange_start.
  - unfold Centered.handleClick.
    destruct (negb (isJumping g)); [apply progressInRange_start | exact P].
  - apply progressInRange_rest.
Qed.

Lemma lowered_step_range (s : GameState) (e : Lowered.Event) :
  loweredForward e = true ->
  progressInRange (isJumping s) (jumpProgress s) ->
  progressInRange (isJumping (Lowered.step s e)) (jumpProgress (Lowered.step s e)).
Proof.
  intros D P. destruct e as [f | g w code | g | w]; simpl in *.
  - destruct (isGameOver s) eqn:A.
    + now rewrite lowered_game_over_fixed.
    + rewrite (lowered_update_alive f s A). cbn.
      apply lowered_move_range; [now apply Qle_bool_iff | exact P].
  - unfold Lowered.handleKeyDown.
    destruct (String.eqb code "Space"), (negb (isJumping g)),
      (Lowered.inWhiteLine w 20 g);
      try exact P; apply progressInRange_start.
  - unfold Lowered.handleClick.
    destruct (negb (isJumping g)); [apply progressInRange_start | exact P].
  - apply progressInRange_rest.
Qed.

Lemma climbing_step_range (c : Climbing.GameState) (e : Climbing.Event) :
  climbingForward e = true ->
  progressInRange (Climbing.isJumping c) (Climbing.jumpProgress c) ->
  progressInRange (Climbing.isJumping (Climbing.step c e))
    (Climbing.jumpProgress (Climbing.step c e)).
Proof.
  intros D P. destruct e as [f | g w code | g w | w]; simpl in *.
  - destruct (Climbing.isGameOver c) eqn:A.
    + now rewrite climbing_game_over_fixed.
    + rewrite (climbing_update_alive f c A). cbn.
      apply climbing_move_range; [now apply Qle_bool_iff | exact P].
  - unfold Climbing.handleKeyDown.
    destruct (String.eqb code "Space"),
      (negb (Climbing.isJumping g) && negb (Climbing.isGameOver g)),
      (Climbing.isGameOver g);
      try exact P; try apply progressInRange_start; apply progressInRange_rest.
  - unfold Climbing.handleClick.
    destruct (negb (Climbing.isJumping g) && negb (Climbing.isGameOver g)),
      (Climbing.isGameOver g);
      try exact P; try apply progressInRange_start; apply progressInRange_rest.
  - apply progressInRange_rest.
Qed.

Lemma centered_run_range (es : list Centered.Event) (s : GameState) :
  forallb centeredForward es = true ->
  progressInRange (isJumping s) (jumpProgress s) ->
  progressInRange (isJumping (Centered.run s es)) (jumpProgress (Centered.run s es)).
Proof.
  revert s. induction es as [|e es IH]; intros s D P; [exact P|].
  simpl in D. apply andb_true_iff in D. destruct D as [De Des].
  apply IH; [exact Des|]. now apply centered_step_range.
Qed.

Lemma lowered_run_range (es : list Lowered.Event) (s : GameState) :
  forallb loweredForward es = true ->
  progressInRange (isJumping s) (jumpProgress s) ->
  progressInRange (isJumping (Lowered.run s es)) (jumpProgress (Lowered.run s es)).
Proof.
  revert s. induction es as [|e es IH]; intros s D P; [exact P|].
  simpl in D. apply andb_true_iff in D. destruct D as [De Des].
  apply IH; [exact Des|]. now apply lowered_step_range.
Qed.

Lemma climbing_run_range (es : list Climbing.Event) (c : Climbing.GameState) :
  forallb climbingForward es = true ->
  progressInRange (Climbing.isJumping c) (Climbing.jumpProgress c) ->
  progressInRange (Climbing.isJumping (Climbing.run c es))
    (Climbing.jumpProgress (Climbing.run c es)).
Proof.
  revert c. induction es as [|e es IH]; intros c D P; [exact P|].
  simpl in D. apply andb_true_iff in D. destruct D as [De Des].
  apply IH; [exact Des|]. now apply climbing_step_range.
Qed.

(** C8, as amended. In every state reached from the initial state by frames
    with a non-negative [deltaTime], key presses, clicks and restarts, the jump
    progress is not negative and, while the player is in the air, below one;
    it is set to zero when a jump or a return jump starts.  Nothing clamps it
    when the jump completes. *)
Theorem jump_progress_range
    (w : option Window) (ea : list Centered.Event) (eb : list Lowered.Event)
    (ec : list Climbing.Event) :
  forallb centeredForward ea = true ->
  forallb loweredForward eb = true ->
  forallb climbingForward ec = true ->
  let a := Centered.run (Centered.initialGameState w) ea in
  let b := Lowered.run (Lowered.initialGameState w) eb in
  let c := Climbing.run (Climbing.initialGameState w) ec in
  (0 <= jumpProgress a /\ (isJumping a = true -> jumpProgress a < 1))
  /\ (0 <= jumpProgress b /\ (isJumping b = true -> jumpProgress b < 1))
  /\ (0 <= Climbing.jumpProgress c
      /\ (Climbing.isJumping c = true -> Climbing.jumpProgress c < 1))
  /\ jumpProgress (jump a) = 0
  /\ jumpProgress (returnToSameWall a) = 0
  /\ Climbing.jumpProgress (Climbing.jump c) = 0.
Proof.
  intros Da Db Dc a b c.
  split; [apply (centered_run_range ea _ Da), progressInRange_rest|].
  split; [apply (lowered_run_range eb _ Db), progressInRange_rest|].
  split; [apply (climbing_run_range ec _ Dc), progressInRange_rest|].
  repeat split.
Qed.

Lemma jump_progress_range_witness :
  isJumping Scenario.midAir = true
  /\ 0 <= jumpProgress Scenario.midAir
  /\ jumpProgress Scenario.midAir < 1.
Proof.
  pose proof (jump_progress_range (Some Scenario.desktop)
                [Scenario.firstFrame; Centered.Click Scenario.resting; Scenario.frame]
                [] [] eq_refl eq_refl eq_refl) as ((P0 & P1) & _).
  split; [reflexivity|]. split; [exact P0 | apply P1; reflexivity].
Defined.

(** C8, as stated, fails: a jump that completes on a frame of a quarter of a
    second leaves a jump progress of 1.25 in the state. *)
Lemma jump_progress_overshoots :
  let s := Centered.run Scenario.start Scenario.overshoot in
  forallb centeredForward Scenario.overshoot = true
  /\ isJumping s = false
  /\ jumpProgress s == 5 # 4
  /\ ~ jumpProgress s <= 1.
Proof.
  split; [reflexivity|]. split; [reflexivity|]. split; [qdecide|].
  intros H. apply Qle_bool_iff in H. discriminate H.
Qed.

(** ** Where a jump lands *)

Lemma centered_landing (f : Frame) (s : GameState) :
  isGameOver s = false ->
  isJumping s = true ->
  1 <= jumpProgress s + deltaTime f * 5 ->
  let s' := Centered.updateGameState f s in
  isJumping s' = false
  /\ isOnLeftWall s' =
     (if Centered.inWhiteLine (window f) 100 s && Qeq_bool (jumpProgress s) 0
      then isOnLeftWall s else negb (isOnLeftWall s))
  /\ playerX s' = Centered.wallX (window f) s (isOnLeftWall s').
Proof.
  intros A J P. rewrite (centered_update_alive f s A). cbn.
  unfold Centered.movePlayer. rewrite J.
  apply Qle_bool_iff in P. rewrite P. cbn. auto.
Qed.

(** Once the progress of a jump is positive, the jump lands on the other
    wall, however it was started. *)
Lemma centered_landing_flips_in_progress (f : Frame) (s : GameState) :
  isGameOver s = false ->
  isJumping s = true ->
  0 < jumpProgress s ->
  1 <= jumpProgress s + deltaTime f * 5 ->
  isOnLeftWall (Centered.updateGameState f s) = negb (isOnLeftWall s).
Proof.
  intros A J P0 P. destruct (centered_landing f s A J P) as (_ & W & _).
  rewrite W. destruct (Qeq_bool (jumpProgress s) 0) eqn:E.
  - apply Qeq_bool_iff in E. lra.
  - now rewrite andb_false_r.
Qed.

(** Away from the white line a completed jump lands on the other wall. *)
Lemma centered_landing_outside_the_white_line (f : Frame) (s : GameState) :
  isGameOver s = false ->
  isJumping s = true ->
  Centered.inWhiteLine (window f) 100 s = false ->
  1 <= jumpProgress s + deltaTime f * 5 ->
  isOnLeftWall (Centered.updateGameState f s) = negb (isOnLeftWall s).
Proof.
  intros A J B P. destruct (centered_landing f s A J P) as (_ & W & _).
  now rewrite W, B.
Qed.

(** The climbing variant has no return jump: every jump lands on the other
    wall, at its resting position. *)
Lemma climbing_landing (f : Frame) (c : Climbing.GameState) :
  Climbing.isGameOver c = false ->
  Climbing.isJumping c = true ->
  1 <= Climbing.jumpProgress c + deltaTime f * 5 ->
  let c' := Climbing.updateGameState f c in
  Climbing.isJumping c' = false
  /\ Climbing.isOnLeftWall c' = negb (Climbing.isOnLeftWall c)
  /\ Climbing.playerX c' =
     Climbing.wallX (window f) c (negb (Climbing.isOnLeftWall c)).
Proof.
  intros A J P. rewrite (climbing_update_alive f c A). cbn.
  unfold Climbing.movePlayer. rewrite J.
  apply Qle_bool_iff in P. rewrite P. cbn. auto.
Qed.

(** C1 on the code. In a window 200 pixels wide the player clicks and leaves
    the left wall; one frame later a press of the space bar is accepted as a
    return jump, by a handler that holds the state of the take-off, whose
    centre, like that of the current state, is inside the white line; four
    frames later the jump completes and the player is on the right wall. *)
Theorem return_jump_lands_on_the_other_wall :
  isOnLeftWall (current Scenario.beforeReturn) = true
  /\ isJumping (current Scenario.beforeReturn) = true
  /\ isJumping (held Scenario.beforeReturn) = true
  /\ playerX (held Scenario.beforeReturn) == 40
  /\ Centered.inWhiteLine Scenario.narrow 100 (held Scenario.beforeReturn) = true
  /\ Centered.inWhiteLine Scenario.narrow 100 (current Scenario.beforeReturn) = true
  /\ current Scenario.afterReturn = returnToSameWall (current Scenario.beforeReturn)
  /\ isOnLeftWall (current Scenario.afterReturn) = true
  /\ isJumping (current Scenario.returnLanded) = false
  /\ 1 <= jumpProgress (current Scenario.returnLanded)
  /\ isOnLeftWall (current Scenario.returnLanded) = false
  /\ playerX (current Scenario.returnLanded) == 130.
Proof.
  repeat split; try qdecide.
Qed.

(** C6 on the code. In a window 200 pixels wide the resting player is inside
    the white line; a fresh jump from the left wall that completes in one
    frame of a quarter of a second is taken for a return jump and ends on the
    left wall, at x = 40 instead of 130. *)
Theorem fresh_jump_taken_for_a_return :
  isOnLeftWall Scenario.narrowResting = true
  /\ isJumping Scenario.narrowResting = false
  /\ Scenario.narrowJumping = jump Scenario.narrowResting
  /\ jumpProgress Scenario.narrowJumping = 0
  /\ isJumping Scenario.narrowLanded = false
  /\ 1 <= jumpProgress Scenario.narrowLanded
  /\ isOnLeftWall Scenario.narrowLanded = true
  /\ playerX Scenario.narrowLanded == 40
  /\ innerWidth Scenario.narrow - wallWidth Scenario.narrowLanded - 10
     - playerSize Scenario.narrowLanded == 130.
Proof.
  repeat split; try qdecide.
Qed.

(** ** Restart *)

(** C7 on the code. From any state, restart gives a state with no elapsed
    time, a running game, no obstacles and the initial position; its walls are
    40 wide where those of the initial state are 30 wide, so it is not the
    initial state. *)
Theorem restart_widens_the_walls (s : GameState) (w : option Window) :
  let r := Centered.step s (Centered.Restart w) in
  let i := Centered.initialGameState w in
  timeElapsed r = 0
  /\ isGameOver r = false
  /\ obstacles r = []
  /\ playerX r = playerX i
  /\ playerY r = playerY i
  /\ wallWidth r = 40
  /\ wallWidth i = 30
  /\ r <> i.
Proof.
  repeat split. intros E. apply (f_equal wallWidth) in E. discriminate E.
Qed.

Lemma lowered_restart_widens_the_walls (s : GameState) (w : option Window) :
  let r := Lowered.step s (Lowered.Restart w) in
  let i := Lowered.initialGameState w in
  timeElapsed r = 0
  /\ isGameOver r = false
  /\ obstacles r = []
  /\ playerX r = playerX i
  /\ playerY r = playerY i
  /\ wallWidth r = 40
  /\ wallWidth i = 30.
Proof.
  repeat split.
Qed.

Lemma climbing_restart_is_initial (c : Climbing.GameState) (w : option Window) :
  Climbing.step c (Climbing.Restart w) = Climbing.initialGameState w.
Proof. reflexivity. Qed.

(** The frame clock never hands a negative [deltaTime] to the updater when the
    timestamps do not go back, and hands zero to the first frame. *)
Lemma frameClock_first (time : Q) : fst (frameClock None time) == 0.
Proof. unfold frameClock. simpl. field. Qed.

Lemma frameClock_forward (previous time : Q) :
  previous <= time -> 0 <= fst (frameClock (Some previous) time).
Proof.
  intros L. unfold frameClock. simpl.
  apply Qle_shift_div_l; [reflexivity|]. lra.
Qed.

(** ** The life of an obstacle *)

Lemma advanceObstacles_In (f : Frame) (l : list Obstacle.t) (o' : Obstacle.t) :
  In o' (advanceObstacles f l) <->
  exists o, In o l
            /\ o' = moveObstacle (deltaTime f) o
            /\ Obstacle.y o' < innerHeight (window f) + 100.
Proof.
  unfold advanceObstacles. rewrite filter_In, in_map_iff.
  unfold onScreen. rewrite Qlt_bool_iff. split.
  - intros [[o [E I]] L]. exists o. auto.
  - intros [o [I [E L]]]. split; [exists o; auto | exact L].
Qed.

Lemma centered_spawn_In (f : Frame) (t : Q) (s : GameState) (o : Obstacle.t) :
  In o (Centered.spawnObstacles f t s) ->
  In o (obstacles s) \/ o = Centered.newObstacle f.
Proof.
  unfold Centered.spawnObstacles. destruct (Centered.shouldSpawn t s); [|auto].
  rewrite in_app_iff. intros [I | [E | []]]; auto.
Qed.

Lemma lowered_spawn_In (f : Frame) (t : Q) (s : GameState) (o : Obstacle.t) :
  In o (Lowered.spawnObstacles f t s) ->
  In o (obstacles s) \/ o = Lowered.newObstacle f s.
Proof.
  unfold Lowered.spawnObstacles. destruct (Lowered.shouldSpawn t s); [|auto].
  rewrite in_app_iff. intros [I | [E | []]]; auto.
Qed.

Lemma centered_spawn_keeps (f : Frame) (t : Q) (s : GameState) (o : Obstacle.t) :
  In o (obstacles s) -> In o (Centered.spawnObstacles f t s).
Proof.
  intros I. unfold Centered.spawnObstacles.
  destruct (Centered.shouldSpawn t s); [apply in_or_app|]; auto.
Qed.

Lemma lowered_spawn_keeps (f : Frame) (t : Q) (s : GameState) (o : Obstacle.t) :
  In o (obstacles s) -> In o (Lowered.spawnObstacles f t s).
Proof.
  intros I. unfold Lowered.spawnObstacles.
  destruct (Lowered.shouldSpawn t s); [apply in_or_app|]; auto.
Qed.

Lemma centered_obstacles_alive (f : Frame) (s : GameState) :
  isGameOver s = false ->
  obstacles (Centered.updateGameState f s) =
  advanceObstacles f (Centered.spawnObstacles f (timeElapsed s + deltaTime f) s).
Proof. intros A. now rewrite (centered_update_alive f s A). Qed.

Lemma lowered_obstacles_alive (f : Frame) (s : GameState) :
  isGameOver s = false ->
  obstacles (Lowered.updateGameState f s) =
  advanceObstacles f (Lowered.spawnObstacles f (timeElapsed s + deltaTime f) s).
Proof. intros A. now rewrite (lowered_update_alive f s A). Qed.

(** X1. After a frame of a running game every obstacle of the state is above
    the line 100 pixels below the window: what has fallen further is gone. *)
Theorem obstacles_below_the_window_are_culled
    (f : Frame) (s : GameState) (o : Obstacle.t) :
  isGameOver s = false ->
  (In o (obstacles (Centered.updateGameState f s)) ->
   Obstacle.y o < innerHeight (window f) + 100)
  /\ (In o (obstacles (Lowered.updateGameState f s)) ->
      Obstacle.y o < innerHeight (window f) + 100).
Proof.
  intros A. rewrite (centered_obstacles_alive f s A), (lowered_obstacles_alive f s A).
  split; intros I; apply advanceObstacles_In in I; destruct I as (o0 & _ & _ & L);
    exact L.
Qed.

Lemma obstacles_below_the_window_are_culled_witness :
  obstacles (Centered.updateGameState Play.slice Play.busy)
  = [moveObstacle (1 # 16) Play.high]
  /\ Obstacle.y (moveObstacle (1 # 16) Play.high) < 600 + 100.
Proof.
  split; [reflexivity|].
  apply (obstacles_below_the_window_are_culled Play.slice Play.busy
           (moveObstacle (1 # 16) Play.high) eq_refl).
  now left.
Defined.

(** X2. Every obstacle of the state after a frame of a running game is an
    obstacle of the state before, or the one spawned by this frame, moved down
    by 200 pixels per second: its wall, its x coordinate and its size are what
    they were. *)
Theorem obstacles_only_fall (f : Frame) (s : GameState) (o' : Obstacle.t) :
  isGameOver s = false ->
  (In o' (obstacles (Centered.updateGameState f s)) ->
   exists o, (In o (obstacles s) \/ o = Centered.newObstacle f)
             /\ Obstacle.x o' = Obstacle.x o
             /\ Obstacle.width o' = Obstacle.width o
             /\ Obstacle.height o' = Obstacle.height o
             /\ Obstacle.isOnLeftWall o' = Obstacle.isOnLeftWall o
             /\ Obstacle.y o' = Obstacle.y o + 200 * deltaTime f)
  /\ (In o' (obstacles (Lowered.updateGameState f s)) ->
      exists o, (In o (obstacles s) \/ o = Lowered.newObstacle f s)
                /\ Obstacle.x o' = Obstacle.x o
                /\ Obstacle.width o' = Obstacle.width o
                /\ Obstacle.height o' = Obstacle.height o
                /\ Obstacle.isOnLeftWall o' = Obstacle.isOnLeftWall o
                /\ Obstacle.y o' = Obstacle.y o + 200 * deltaTime f).
Proof.
  intros A. rewrite (centered_obstacles_alive f s A), (lowered_obstacles_alive f s A).
  split; intros I; apply advanceObstacles_In in I; destruct I as (o & I & -> & _);
    exists o.
  - split; [now apply centered_spawn_In in I|]. repeat split.
  - split; [now apply lowered_spawn_In in I|]. repeat split.
Qed.

Lemma obstacles_only_fall_witness :
  exists o, (In o (obstacles Scenario.tallStart)
             \/ o = Centered.newObstacle Scenario.touchingFrame)
            /\ Obstacle.isOnLeftWall o = true
            /\ Obstacle.y o + 200 * deltaTime Scenario.touchingFrame == 220.
Proof.
  destruct (obstacles_only_fall Scenario.touchingFrame Scenario.tallStart
              (moveObstacle (3 # 2) (Centered.newObstacle Scenario.touchingFrame))
              eq_refl) as [C _].
  destruct C as (o & P & _ & _ & _ & W & Y); [now left|].
  exists o. split; [exact P|]. split; [now rewrite <- W|].
  rewrite <- Y. qdecide.
Defined.

(** X3. A frame of a running game loses no obstacle that is still above the
    cull line after its move: it is in the new state, moved. *)
Theorem visible_obstacles_survive (f : Frame) (s : GameState) (o : Obstacle.t) :
  isGameOver s = false ->
  In o (obstacles s) ->
  Obstacle.y o + 200 * deltaTime f < innerHeight (window f) + 100 ->
  In (moveObstacle (deltaTime f) o) (obstacles (Centered.updateGameState f s))
  /\ In (moveObstacle (deltaTime f) o) (obstacles (Lowered.updateGameState f s)).
Proof.
  intros A I L.
  rewrite (centered_obstacles_alive f s A), (lowered_obstacles_alive f s A).
  split; apply advanceObstacles_In; exists o.
  - split; [now apply centered_spawn_keeps|]. split; [reflexivity | exact L].
  - split; [now apply lowered_spawn_keeps|]. split; [reflexivity | exact L].
Qed.

Lemma visible_obstacles_survive_witness :
  In (moveObstacle (1 # 16) Play.high)
     (obstacles (Centered.updateGameState Play.slice Play.busy))
  /\ In (moveObstacle (1 # 16) Play.high)
        (obstacles (Lowered.updateGameState Play.slice Play.busy)).
Proof.
  apply (visible_obstacles_survive Play.slice Play.busy Play.high eq_refl).
  - right. now left.
  - qdecide.
Defined.

(** X4. A frame adds at most one obstacle to the state. *)
Theorem a_frame_adds_at_most_one_obstacle (f : Frame) (s : GameState) :
  (List.length (obstacles (Centered.updateGameState f s))
   <= S (List.length (obstacles s)))%nat
  /\ (List.length (obstacles (Lowered.updateGameState f s))
      <= S (List.length (obstacles s)))%nat.
Proof.
  destruct (isGameOver s) eqn:A.
  - rewrite centered_game_over_fixed, lowered_game_over_fixed by assumption. lia.
  - rewrite (centered_obstacles_alive f s A), (lowered_obstacles_alive f s A).
    unfold advanceObstacles, Centered.spawnObstacles, Lowered.spawnObstacles.
    split.
    + eapply Nat.le_trans; [apply filter_length_le|]. rewrite length_map.
      destruct (Centered.shouldSpawn _ s); [rewrite length_app; simpl|]; lia.
    + eapply Nat.le_trans; [apply filter_length_le|]. rewrite length_map.
      destruct (Lowered.shouldSpawn _ s); [rewrite length_app; simpl|]; lia.
Qed.

(** ** What the runs keep *)

Lemma centered_step_clock (s : GameState) (e : Centered.Event) :
  centeredForward e = true -> spawnClock s -> spawnClock (Centered.step s e).
Proof.
  intros D [C0 C1]. destruct e as [f | g w code | g | w]; simpl in *.
  - destruct (isGameOver s) eqn:A.
    + rewrite centered_game_over_fixed by assumption. now split.
    + apply Qle_bool_iff in D. rewrite (centered_update_alive f s A).
      unfold spawnClock. cbn.
      destruct (Centered.shouldSpawn (timeElapsed s + deltaTime f) s); split; lra.
  - unfold Centered.handleKeyDown.
    destruct (String.eqb code "Space"), (negb (isJumping g)),
      (Centered.inWhiteLine w 100 g); now split.
  - unfold Centered.handleClick. destruct (negb (isJumping g)); now split.
  - split; simpl; lra.
Qed.

Lemma lowered_step_clock (s : GameState) (e : Lowered.Event) :
  loweredForward e = true -> spawnClock s -> spawnClock (Lowered.step s e).
Proof.
  intros D [C0 C1]. destruct e as [f | g w code | g | w]; simpl in *.
  - destruct (isGameOver s) eqn:A.
    + rewrite lowered_game_over_fixed by assumption. now split.
    + apply Qle_bool_iff in D. rewrite (lowered_update_alive f s A).
      unfold spawnClock. cbn.
      destruct (Lowered.shouldSpawn (timeElapsed s + deltaTime f) s); split; lra.
  - unfold Lowered.handleKeyDown.
    destruct (String.eqb code "Space"), (negb (isJumping g)),
      (Lowered.inWhiteLine w 20 g); now split.
  - unfold Lowered.handleClick. destruct (negb (isJumping g)); now split.
  - split; simpl; lra.
Qed.

(** X5. In every state reached from the initial state by frames with a
    non-negative [deltaTime], key presses, clicks and restarts, the time of the
    last spawn is between zero and the elapsed time. *)
Theorem last_spawn_is_in_the_past
    (w : option Window) (ea : list Centered.Event) (eb : list Lowered.Event) :
  forallb centeredForward ea = true ->
  forallb loweredForward eb = true ->
  let a := Centered.run (Centered.initialGameState w) ea in
  let b := Lowered.run (Lowered.initialGameState w) eb in
  (0 <= lastObstacleTime a /\ lastObstacleTime a <= timeElapsed a)
  /\ (0 <= lastObstacleTime b /\ lastObstacleTime b <= timeElapsed b).
Proof.
  intros Da Db. cbv zeta.
  assert (I : forall v : GameState,
             v = Centered.initialGameState w \/ v = Lowered.initialGameState w ->
             spawnClock v).
  { intros v [-> | ->]; split; simpl; lra. }
  split.
  - generalize (I _ (or_introl eq_refl)). clear I Db.
    generalize (Centered.initialGameState w) as s. revert Da.
    induction ea as [|e ea IH]; intros D s C; [exact C|].
    simpl in D. apply andb_true_iff in D. destruct D as [De Des].
    apply (IH Des). now apply centered_step_clock.
  - generalize (I _ (or_intror eq_refl)). clear I Da.
    generalize (Lowered.initialGameState w) as s. revert Db.
    induction eb as [|e eb IH]; intros D s C; [exact C|].
    simpl in D. apply andb_true_iff in D. destruct D as [De Des].
    apply (IH Des). now apply lowered_step_clock.
Qed.

Lemma last_spawn_is_in_the_past_witness :
  let s := Centered.run Scenario.tallStart
             [Centered.Tick Scenario.touchingFrame; Centered.Tick Scenario.stillFrame] in
  lastObstacleTime s == 3 # 2 /\ lastObstacleTime s <= timeElapsed s.
Proof.
  intros s. split; [qdecide|].
  apply (last_spawn_is_in_the_past (Some Scenario.tall)
           [Centered.Tick Scenario.touchingFrame; Centered.Tick Scenario.stillFrame]
           [] eq_refl eq_refl).
Defined.

Lemma centered_newObstacle_shape (f : Frame) :
  centeredObstacleShape (Centered.newObstacle f).
Proof.
  unfold centeredObstacleShape, Centered.newObstacle. simpl.
  repeat split. now intros ->.
Qed.

Lemma lowered_newObstacle_shape (f : Frame) (s : GameState) :
  loweredObstacleShape (wallWidth s) (Lowered.newObstacle f s).
Proof.
  unfold loweredObstacleShape, Lowered.newObstacle. simpl.
  repeat split. now intros ->.
Qed.

Lemma centered_step_shape (s : GameState) (e : Centered.Event) :
  centeredShape s -> centeredShape (Centered.step s e).
Proof.
  intros (P & V & W & O). destruct e as [f | g w code | g | w]; simpl.
  - destruct (isGameOver s) eqn:A.
    + rewrite centered_game_over_fixed by assumption. repeat split; assumption.
    + rewrite (centered_update_alive f s A). unfold centeredShape. cbn.
      repeat split; try assumption.
      apply Forall_forall. intros o' I. apply advanceObstacles_In in I.
      destruct I as (o & I & -> & _). apply centered_spawn_In in I.
      assert (H : centeredObstacleShape o).
      { destruct I as [I | ->]; [|apply centered_newObstacle_shape].
        rewrite Forall_forall in O. now apply O. }
      exact H.
  - unfold Centered.handleKeyDown.
    destruct (String.eqb code "Space"), (negb (isJumping g)),
      (Centered.inWhiteLine w 100 g); repeat split; assumption.
  - unfold Centered.handleClick.
    destruct (negb (isJumping g)); repeat split; assumption.
  - repeat split; auto.
Qed.

Lemma lowered_step_shape (s : GameState) (e : Lowered.Event) :
  loweredShape s -> loweredShape (Lowered.step s e).
Proof.
  intros (P & V & W & O). destruct e as [f | g w code | g | w]; simpl.
  - destruct (isGameOver s) eqn:A.
    + rewrite lowered_game_over_fixed by assumption. repeat split; assumption.
    + rewrite (lowered_update_alive f s A). unfold loweredShape. cbn.
      repeat split; try assumption.
      apply Forall_forall. intros o' I. apply advanceObstacles_In in I.
      destruct I as (o & I & -> & _). apply lowered_spawn_In in I.
      assert (H : loweredObstacleShape (wallWidth s) o).
      { destruct I as [I | ->]; [|apply lowered_newObstacle_shape].
        rewrite Forall_forall in O. now apply O. }
      exact H.
  - unfold Lowered.handleKeyDown.
    destruct (String.eqb code "Space"), (negb (isJumping g)),
      (Lowered.inWhiteLine w 20 g); repeat split; assumption.
  - unfold Lowered.handleClick.
    destruct (negb (isJumping g)); repeat split; assumption.
  - repeat split; auto.
Qed.

(** X6. In every state of the centred variant reached from the initial state,
    by any frames, key presses, clicks and restarts, the player is 30 wide, the
    walls are 30 or 40 wide, and every obstacle is a square of 80 pixels whose
    left edge is at 0 when it is on the left wall. *)
Theorem centered_sizes_are_kept (w : option Window) (es : list Centered.Event) :
  let s := Centered.run (Centered.initialGameState w) es in
  playerSize s = 30
  /\ speed s = 150
  /\ (wallWidth s = 30 \/ wallWidth s = 40)
  /\ Forall centeredObstacleShape (obstacles s).
Proof.
  cbv zeta.
  assert (I : centeredShape (Centered.initialGameState w)).
  { repeat split; auto. }
  revert I. generalize (Centered.initialGameState w) as s.
  induction es as [|e es IH]; intros s I; [exact I|].
  apply IH. now apply centered_step_shape.
Qed.

(** X7. In every state of the lowered variant reached from the initial state
    the player is 30 wide, the walls are 30 or 40 wide, and every obstacle is
    80 high and exactly as wide as the walls of that state, with its left edge
    at 0 when it is on the left wall. *)
Theorem lowered_obstacles_match_the_walls (w : option Window) (es : list Lowered.Event) :
  let s := Lowered.run (Lowered.initialGameState w) es in
  playerSize s = 30
  /\ speed s = 150
  /\ (wallWidth s = 30 \/ wallWidth s = 40)
  /\ Forall (loweredObstacleShape (wallWidth s)) (obstacles s).
Proof.
  cbv zeta.
  assert (I : loweredShape (Lowered.initialGameState w)).
  { repeat split; auto. }
  revert I. generalize (Lowered.initialGameState w) as s.
  induction es as [|e es IH]; intros s I; [exact I|].
  apply IH. now apply lowered_step_shape.
Qed.

(** ** The input handlers *)

(** X8. In the side-to-side variants a key press or a click changes nothing of
    the state but [isJumping] and [jumpProgress]; a key other than the space
    bar changes nothing at all, and neither does a click of a handler that
    sees the player jumping. *)
Theorem inputs_only_touch_the_jump
    (g s : GameState) (w : Window) (code : string) :
  frozen s (Centered.handleKeyDown g w code s)
  /\ frozen s (Centered.handleClick g s)
  /\ frozen s (Lowered.handleKeyDown g w code s)
  /\ frozen s (Lowered.handleClick g s)
  /\ (code <> "Space"%string ->
      Centered.handleKeyDown g w code s = s /\ Lowered.handleKeyDown g w code s = s)
  /\ (isJumping g = true ->
      Centered.handleClick g s = s /\ Lowered.handleClick g s = s).
Proof.
  unfold Centered.handleKeyDown, Centered.handleClick,
    Lowered.handleKeyDown, Lowered.handleClick.
  split; [|split; [|split; [|split; [|split]]]].
  - destruct (String.eqb code "Space"), (negb (isJumping g)),
      (Centered.inWhiteLine w 100 g);
      try apply frozen_refl; apply frozen_set_jump.
  - destruct (negb (isJumping g)); [apply frozen_set_jump | apply frozen_refl].
  - destruct (String.eqb code "Space"), (negb (isJumping g)),
      (Lowered.inWhiteLine w 20 g);
      try apply frozen_refl; apply frozen_set_jump.
  - destruct (negb (isJumping g)); [apply frozen_set_jump | apply frozen_refl].
  - intros N. apply String.eqb_neq in N. now rewrite N.
  - intros J. now rewrite J.
Qed.

(** ** The course of a jump *)

Lemma centered_tick_rest (f : Frame) (s : GameState) :
  isJumping s = false -> isJumping (Centered.updateGameState f s) = false.
Proof.
  intros J. destruct (isGameOver s) eqn:A.
  - now rewrite centered_game_over_fixed.
  - rewrite (centered_update_alive f s A). cbn.
    unfold Centered.movePlayer. now rewrite J.
Qed.

Lemma centered_ticks_rest (fs : list Frame) (s : GameState) :
  isJumping s = false -> isJumping (Centered.run s (map Centered.Tick fs)) = false.
Proof.
  revert s. induction fs as [|f fs IH]; intros s J; [exact J|].
  cbn. apply IH. now apply centered_tick_rest.
Qed.

Lemma centered_flight (f : Frame) (s : GameState) :
  isGameOver s = false ->
  isJumping s = true ->
  jumpProgress s + deltaTime f * 5 < 1 ->
  let s' := Centered.updateGameState f s in
  isGameOver s' = false
  /\ isJumping s' = true
  /\ isOnLeftWall s' = isOnLeftWall s
  /\ jumpProgress s' = jumpProgress s + deltaTime f * 5.
Proof.
  intros A J P s'. split.
  - destruct (isGameOver s') eqn:E; [|reflexivity].
    apply (centered_game_over_iff f s A) in E.
    destruct E as (_ & _ & _ & J' & _). congruence.
  - unfold s'. rewrite (centered_update_alive f s A). cbn.
    unfold Centered.movePlayer. rewrite J.
    apply Qle_bool_false_iff in P. rewrite P. cbn. auto.
Qed.

(** A jump under way from the wall [left], or a player that has landed on the
    other wall: frames that do not go back in time keep this. *)
Lemma centered_under_way (left : bool) (f : Frame) (s : GameState) :
  0 <= deltaTime f ->
  (isGameOver s = false /\ isJumping s = true /\ 0 < jumpProgress s
   /\ isOnLeftWall s = left)
  \/ (isJumping s = false /\ isOnLeftWall s = negb left) ->
  let s' := Centered.updateGameState f s in
  (isGameOver s' = false /\ isJumping s' = true /\ 0 < jumpProgress s'
   /\ isOnLeftWall s' = left)
  \/ (isJumping s' = false /\ isOnLeftWall s' = negb left).
Proof.
  intros D [(A & J & P & W) | (J & W)] s'; subst s'.
  - destruct (Qle_bool 1 (jumpProgress s + deltaTime f * 5)) eqn:E.
    + apply Qle_bool_iff in E. right. split.
      * apply (centered_landing f s A J E).
      * rewrite (centered_landing_flips_in_progress f s A J P E).
        now rewrite W.
    + apply Qle_bool_false_iff in E. left.
      destruct (centered_flight f s A J E) as (A' & J' & W' & P').
      repeat split; try assumption; [rewrite P'; lra | congruence].
  - right. split.
    + now apply centered_tick_rest.
    + rewrite centered_resting_keeps_wall by exact J. exact W.
Qed.

Lemma centered_under_way_run (left : bool) (fs : list Frame) (s : GameState) :
  forallb (fun f => Qle_bool 0 (deltaTime f)) fs = true ->
  (isGameOver s = false /\ isJumping s = true /\ 0 < jumpProgress s
   /\ isOnLeftWall s = left)
  \/ (isJumping s = false /\ isOnLeftWall s = negb left) ->
  let s' := Centered.run s (map Centered.Tick fs) in
  (isGameOver s' = false /\ isJumping s' = true /\ 0 < jumpProgress s'
   /\ isOnLeftWall s' = left)
  \/ (isJumping s' = false /\ isOnLeftWall s' = negb left).
Proof.
  revert s. induction fs as [|f fs IH]; intros s D I; [exact I|].
  simpl in D. apply andb_true_iff in D. destruct D as [Df Dfs].
  cbn. apply (IH _ Dfs). apply centered_under_way; [now apply Qle_bool_iff | exact I].
Qed.

(** X10. The first frame decides a return jump of the centred variant that
    was started over the white line.  If that frame completes the jump, which
    takes a fifth of a second, the player rests on the wall it left.  If it
    advances the progress without completing the jump, the player is put back
    at that wall at once, still jumping, and whenever later frames complete
    the jump the player is on the other wall. *)
Theorem return_jump_first_frame_decides
    (f : Frame) (s : GameState) (fs : list Frame) :
  isGameOver s = false ->
  Centered.inWhiteLine (window f) 100 s = true ->
  let s' := Centered.updateGameState f (returnToSameWall s) in
  (1 <= deltaTime f * 5 ->
   isJumping s' = false
   /\ isOnLeftWall s' = isOnLeftWall s
   /\ playerX s' = Centered.wallX (window f) s (isOnLeftWall s))
  /\ (0 < deltaTime f * 5 ->
      deltaTime f * 5 < 1 ->
      isJumping s' = true
      /\ isOnLeftWall s' = isOnLeftWall s
      /\ playerX s' == Centered.wallX (window f) s (isOnLeftWall s)
      /\ jumpProgress s' == deltaTime f * 5
      /\ (forallb (fun f' => Qle_bool 0 (deltaTime f')) fs = true ->
          isJumping (Centered.run s' (map Centered.Tick fs)) = false ->
          isOnLeftWall (Centered.run s' (map Centered.Tick fs))
          = negb (isOnLeftWall s))).
Proof.
  intros A B s'.
  assert (A' : isGameOver (returnToSameWall s) = false) by exact A.
  split.
  - intros D.
    assert (P : 1 <= jumpProgress (returnToSameWall s) + deltaTime f * 5).
    { simpl. lra. }
    destruct (centered_landing f _ A' eq_refl P) as (J & W & X).
    change (Centered.inWhiteLine (window f) 100 (returnToSameWall s))
      with (Centered.inWhiteLine (window f) 100 s) in W.
    rewrite B in W. simpl in W.
    split; [exact J|]. split; [exact W|]. fold s' in X, W. rewrite X, W. reflexivity.
  - intros D0 D1.
    assert (P : jumpProgress (returnToSameWall s) + deltaTime f * 5 < 1).
    { simpl. lra. }
    destruct (centered_flight f _ A' eq_refl P) as (G & J & W & Q).
    fold s' in G, J, W, Q.
    assert (X : playerX s' == Centered.wallX (window f) s (isOnLeftWall s)).
    { unfold s'. rewrite (centered_update_alive f _ A'). cbn.
      unfold Centered.movePlayer.
      change (isJumping (returnToSameWall s)) with true.
      change (jumpProgress (returnToSameWall s)) with 0.
      change (Centered.inWhiteLine (window f) 100 (returnToSameWall s))
        with (Centered.inWhiteLine (window f) 100 s).
      change (isOnLeftWall (returnToSameWall s)) with (isOnLeftWall s).
      assert (E : Qle_bool 1 (0 + deltaTime f * 5) = false).
      { apply Qle_bool_false_iff. lra. }
      rewrite E, B. cbn.
      change (Centered.wallX (window f) (returnToSameWall s) (isOnLeftWall s))
        with (Centered.wallX (window f) s (isOnLeftWall s)).
      ring. }
    split; [exact J|]. split; [exact W|]. split; [exact X|].
    split; [rewrite Q; simpl; ring|].
    intros D L.
    destruct (centered_under_way_run (isOnLeftWall s) fs s' D) as [F | F].
    + left. repeat split; try assumption. rewrite Q. simpl. lra.
    + destruct F as (_ & J' & _). congruence.
    + apply F.
Qed.

Lemma return_jump_first_frame_decides_witness :
  let r := returnToSameWall (current Scenario.beforeReturn) in
  let later := map Centered.Tick
                 [Scenario.shortFrame; Scenario.shortFrame; Scenario.shortFrame] in
  (isJumping (Centered.updateGameState Scenario.longFrame r) = false
   /\ isOnLeftWall (Centered.updateGameState Scenario.longFrame r)
      = isOnLeftWall (current Scenario.beforeReturn))
  /\ isOnLeftWall
       (Centered.run (Centered.updateGameState Scenario.shortFrame r) later)
     = negb (isOnLeftWall (current Scenario.beforeReturn)).
Proof.
  intros r later. split.
  - destruct (return_jump_first_frame_decides Scenario.longFrame
                (current Scenario.beforeReturn) []) as [L _];
      [vm_compute; reflexivity | vm_compute; reflexivity |].
    destruct L as (J & W & _); [vm_compute; discriminate|].
    split; [exact J | exact W].
  - destruct (return_jump_first_frame_decides Scenario.shortFrame
                (current Scenario.beforeReturn)
                [Scenario.shortFrame; Scenario.shortFrame; Scenario.shortFrame])
      as [_ S]; [vm_compute; reflexivity | vm_compute; reflexivity |].
    destruct S as (_ & _ & _ & _ & S);
      [vm_compute; reflexivity | vm_compute; reflexivity |].
    apply S; vm_compute; reflexivity.
Defined.

Lemma between_interpolation (a b p : Q) :
  0 <= p -> p <= 1 -> a <= b ->
  a <= a + (b - a) * p /\ a + (b - a) * p <= b
  /\ a <= b + (a - b) * p /\ b + (a - b) * p <= b.
Proof.
  intros P0 P1 L.
  assert (H0 : 0 <= (b - a) * p) by (apply Qmult_le_0_compat; lra).
  assert (H1 : 0 <= (b - a) * (1 - p)) by (apply Qmult_le_0_compat; lra).
  repeat split; lra.
Qed.

(** X11. In a window wide enough for the two resting positions to be in
    order, every frame of a running game of the centred variant leaves the
    player between them, whether it rests, flies or lands, as long as the jump
    progress and [deltaTime] are not negative. *)
Theorem player_stays_between_the_walls (f : Frame) (s : GameState) :
  isGameOver s = false ->
  0 <= jumpProgress s ->
  0 <= deltaTime f ->
  wallWidth s + 10 <= innerWidth (window f) - wallWidth s - 10 - playerSize s ->
  let s' := Centered.updateGameState f s in
  wallWidth s + 10 <= playerX s'
  /\ playerX s' <= innerWidth (window f) - wallWidth s - 10 - playerSize s.
Proof.
  intros A P D L. rewrite (centered_update_alive f s A). cbn.
  unfold Centered.movePlayer.
  destruct (isJumping s).
  - destruct (Qle_bool 1 (jumpProgress s + deltaTime f * 5)) eqn:E.
    + cbn. unfold Centered.wallX.
      destruct (Centered.inWhiteLine (window f) 100 s && Qeq_bool (jumpProgress s) 0),
        (isOnLeftWall s); simpl; split; lra.
    + apply Qle_bool_false_iff in E. cbn. unfold Centered.wallX.
      destruct (between_interpolation (wallWidth s + 10)
                  (innerWidth (window f) - wallWidth s - 10 - playerSize s)
                  (jumpProgress s + deltaTime f * 5)) as (I1 & I2 & I3 & I4);
        [lra | lra | exact L |].
      destruct (Centered.inWhiteLine (window f) 100 s && Qeq_bool (jumpProgress s) 0),
        (isOnLeftWall s); simpl; split; try assumption; lra.
  - cbn. unfold Centered.wallX. destruct (isOnLeftWall s); split; lra.
Qed.

Lemma player_stays_between_the_walls_witness :
  40 <= playerX Scenario.midAir /\ playerX Scenario.midAir <= 930.
Proof.
  exact (player_stays_between_the_walls Play.flight Play.takeOff
           eq_refl ltac:(discriminate) ltac:(discriminate) ltac:(discriminate)).
Defined.

(** X12. In the centred variant, while the game is running and the player is
    in the air, whether the player is still in the air after some frames is
    a matter of the jump progress and the [deltaTime]s alone, whatever the
    obstacles and the window: it is, as long as every sum of the progress and
    the [deltaTime * 5] of the frames so far, added frame by frame, is below
    one.  As long as it is, the game is not over, the wall is the one the
    player left and the jump progress is that sum. *)
Theorem flight_depends_on_the_progress_alone (fs : list Frame) (s : GameState) :
  isGameOver s = false ->
  isJumping s = true ->
  let s' := Centered.run s (map Centered.Tick fs) in
  isJumping s' = stillFlying (jumpProgress s) fs
  /\ (stillFlying (jumpProgress s) fs = true ->
      isGameOver s' = false
      /\ isOnLeftWall s' = isOnLeftWall s
      /\ jumpProgress s' = progressAfter (jumpProgress s) fs).
Proof.
  revert s. induction fs as [|f fs IH]; intros s A J.
  - cbn. auto.
  - cbn. destruct (Qle_bool 1 (jumpProgress s + deltaTime f * 5)) eqn:E.
    + apply Qle_bool_iff in E.
      destruct (centered_landing f s A J E) as (J' & _).
      split; [now apply centered_ticks_rest | discriminate].
    + apply Qle_bool_false_iff in E.
      destruct (centered_flight f s A J E) as (A' & J' & W' & P').
      destruct (IH _ A' J') as [I1 I2]. rewrite P' in I1, I2.
      split; [exact I1|]. intros F. destruct (I2 F) as (G & W & P).
      unfold progressAfter in *. cbn. rewrite <- W'. auto.
Qed.

Lemma flight_depends_on_the_progress_alone_witness :
  isJumping (Centered.run Play.takeOff (map Centered.Tick [Play.flight; Play.flight]))
  = true
  /\ isJumping (Centered.run Play.takeOff
                  (map Centered.Tick [Play.flight; Play.flight; Play.flight]))
     = false.
Proof.
  split.
  - destruct (flight_depends_on_the_progress_alone [Play.flight; Play.flight]
                Play.takeOff eq_refl eq_refl) as [E _].
    rewrite E. reflexivity.
  - destruct (flight_depends_on_the_progress_alone
                [Play.flight; Play.flight; Play.flight] Play.takeOff
                eq_refl eq_refl) as [E _].
    rewrite E. reflexivity.
Defined.

(** ** The animation loop *)

Section Clock.

Variable State : Type.
Variable over : State -> bool.
Variable elapsed : State -> Q.
Variable update : Frame -> State -> State.
Hypothesis over_fixed : forall f s, over s = true -> update f s = s.
Hypothesis alive_elapsed :
  forall f s, over s = false -> elapsed (update f s) = elapsed s + deltaTime f.

Lemma update_forward (f : Frame) (s : State) :
  0 <= deltaTime f -> elapsed s <= elapsed (update f s).
Proof.
  intros D. destruct (over s) eqn:O.
  - rewrite over_fixed by exact O. apply Qle_refl.
  - rewrite alive_elapsed by exact O. lra.
Qed.

Lemma animateWith_cons (c : Call) (calls : list Call) (ref : option Q) (s : State) :
  animateWith update (c :: calls) (ref, s)
  = animateWith update calls
      (Some (callTime c),
       update (mkFrame (snd (fst c)) (fst (frameClock ref (callTime c))) (snd c)) s).
Proof. reflexivity. Qed.

Lemma animateWith_ref (calls : list Call) (ref : option Q) (s : State) :
  fst (animateWith update calls (ref, s))
  = fold_left (fun _ k => Some (callTime k)) calls ref.
Proof.
  revert ref s. induction calls as [|c calls IH]; intros ref s; [reflexivity|].
  rewrite animateWith_cons, IH. reflexivity.
Qed.

Lemma animateWith_forward (calls : list Call) (t : Q) (s : State) :
  forwardFrom t calls ->
  elapsed s <= elapsed (snd (animateWith update calls (Some t, s))).
Proof.
  revert t s. induction calls as [|c calls IH]; intros t s F.
  - apply Qle_refl.
  - destruct F as [L F]. rewrite animateWith_cons.
    eapply Qle_trans; [|apply (IH _ _ F)].
    apply update_forward. cbn [deltaTime]. now apply frameClock_forward.
Qed.

Lemma animateWith_start (calls : list Call) (ref : option Q) (s : State) :
  clockForward ref calls ->
  elapsed s <= elapsed (snd (animateWith update calls (ref, s))).
Proof.
  destruct ref as [t|]; [apply animateWith_forward|].
  destruct calls as [|c calls]; intros F; [apply Qle_refl|].
  rewrite animateWith_cons.
  eapply Qle_trans; [|apply (animateWith_forward _ _ _ F)].
  apply update_forward. cbn [deltaTime].
  rewrite (frameClock_first (callTime c)). apply Qle_refl.
Qed.

Lemma animateWith_first (c : Call) (s : State) :
  elapsed (snd (animateWith update [c] (None, s))) == elapsed s.
Proof.
  rewrite animateWith_cons. cbn [animateWith fold_left snd].
  destruct (over s) eqn:O.
  - rewrite over_fixed by exact O. reflexivity.
  - rewrite alive_elapsed by exact O. cbn [deltaTime].
    rewrite (frameClock_first (callTime c)). ring.
Qed.

End Clock.

Lemma centered_alive_elapsed (f : Frame) (s : GameState) :
  isGameOver s = false ->
  timeElapsed (Centered.updateGameState f s) = timeElapsed s + deltaTime f.
Proof. intros A. now rewrite (centered_update_alive f s A). Qed.

Lemma lowered_alive_elapsed (f : Frame) (s : GameState) :
  isGameOver s = false ->
  timeElapsed (Lowered.updateGameState f s) = timeElapsed s + deltaTime f.
Proof. intros A. now rewrite (lowered_update_alive f s A). Qed.

Lemma climbing_alive_elapsed (f : Frame) (c : Climbing.GameState) :
  Climbing.isGameOver c = false ->
  Climbing.timeElapsed (Climbing.updateGameState f c)
  = Climbing.timeElapsed c + deltaTime f.
Proof. intros A. now rewrite (climbing_update_alive f c A). Qed.

(** X13. The elapsed time never runs back: over any calls of [gameLoop] whose
    timestamps do not decrease, [timeElapsed] does not decrease, in every
    variant.  After the calls the stored timestamp is that of the last call,
    also when the game is over; and the first call of a fresh clock, whatever
    its timestamp, leaves [timeElapsed] as it was. *)
Theorem elapsed_time_never_runs_back
    (calls : list Call) (ref : option Q) (s : GameState) (c : Climbing.GameState)
    (call : Call) :
  clockForward ref calls ->
  let a := centeredAnimate calls (ref, s) in
  let b := loweredAnimate calls (ref, s) in
  let d := climbingAnimate calls (ref, c) in
  (timeElapsed s <= timeElapsed (snd a)
   /\ timeElapsed s <= timeElapsed (snd b)
   /\ Climbing.timeElapsed c <= Climbing.timeElapsed (snd d))
  /\ (fst a = fold_left (fun _ k => Some (callTime k)) calls ref
      /\ fst b = fold_left (fun _ k => Some (callTime k)) calls ref
      /\ fst d = fold_left (fun _ k => Some (callTime k)) calls ref)
  /\ (timeElapsed (snd (centeredAnimate [call] (None, s))) == timeElapsed s
      /\ timeElapsed (snd (loweredAnimate [call] (None, s))) == timeElapsed s
      /\ Climbing.timeElapsed (snd (climbingAnimate [call] (None, c)))
         == Climbing.timeElapsed c).
Proof.
  intros F. cbv zeta.
  split; [|split]; (split; [|split]).
  - apply (animateWith_start GameState isGameOver timeElapsed
             Centered.updateGameState centered_game_over_fixed
             centered_alive_elapsed calls ref s F).
  - apply (animateWith_start GameState isGameOver timeElapsed
             Lowered.updateGameState lowered_game_over_fixed
             lowered_alive_elapsed calls ref s F).
  - apply (animateWith_start Climbing.GameState Climbing.isGameOver
             Climbing.timeElapsed Climbing.updateGameState
             climbing_game_over_fixed climbing_alive_elapsed calls ref c F).
  - apply (animateWith_ref GameState Centered.updateGameState).
  - apply (animateWith_ref GameState Lowered.updateGameState).
  - apply (animateWith_ref Climbing.GameState Climbing.updateGameState).
  - apply (animateWith_first GameState isGameOver timeElapsed
             Centered.updateGameState centered_game_over_fixed
             centered_alive_elapsed).
  - apply (animateWith_first GameState isGameOver timeElapsed
             Lowered.updateGameState lowered_game_over_fixed
             lowered_alive_elapsed).
  - apply (animateWith_first Climbing.GameState Climbing.isGameOver
             Climbing.timeElapsed Climbing.updateGameState
             climbing_game_over_fixed climbing_alive_elapsed).
Qed.

Lemma elapsed_time_never_runs_back_witness :
  timeElapsed Scenario.start
  <= timeElapsed (snd (centeredAnimate Play.calls (None, Scenario.start)))
  /\ fst (centeredAnimate Play.calls (None, Scenario.start)) = Some 1048.
Proof.
  assert (F : clockForward None Play.calls).
  { simpl. repeat split; discriminate. }
  destruct (elapsed_time_never_runs_back Play.calls None Scenario.start
              (Climbing.initialGameState None) (0, Scenario.desktop, true) F)
    as ((A & _) & (R & _) & _).
  split; [exact A | exact R].
Defined.

(** ** The climbing run *)

Lemma climbingSummit_initial (w : option Window) :
  climbingSummit (Climbing.initialGameState w).
Proof. split; [reflexivity | discriminate]. Qed.

Lemma climbing_step_summit (c : Climbing.GameState) (e : Climbing.Event) :
  climbingSummit c -> climbingSummit (Climbing.step c e).
Proof.
  intros L. destruct e as [f | g w code | g w | w]; simpl.
  - destruct (Climbing.isGameOver c) eqn:A.
    + now rewrite climbing_game_over_fixed.
    + destruct L as (V & _). rewrite (climbing_update_alive f c A).
      unfold climbingSummit. cbn. split; [exact V | apply Qle_bool_iff].
  - unfold Climbing.handleKeyDown.
    destruct (String.eqb code "Space"),
      (negb (Climbing.isJumping g) && negb (Climbing.isGameOver g)),
      (Climbing.isGameOver g);
      try exact L; apply climbingSummit_initial.
  - unfold Climbing.handleClick.
    destruct (negb (Climbing.isJumping g) && negb (Climbing.isGameOver g)),
      (Climbing.isGameOver g);
      try exact L; apply climbingSummit_initial.
  - apply climbingSummit_initial.
Qed.

(** X14. The climbing run ends only at the top: in every state reached from
    the initial state, by any frames, key presses, clicks and restarts, the
    speed is 150 and, when the game is over, the player is at or above the top
    of the window.  A frame of a running game ends the run exactly when it
    puts the player there, and never moves the player down when its
    [deltaTime] is not negative. *)
Theorem climbing_run_ends_at_the_top
    (w : option Window) (es : list Climbing.Event) (f : Frame) :
  let c := Climbing.run (Climbing.initialGameState w) es in
  Climbing.speed c = 150
  /\ (Climbing.isGameOver c = true -> Climbing.playerY c <= 0)
  /\ (Climbing.isGameOver c = false ->
      let c' := Climbing.updateGameState f c in
      (Climbing.isGameOver c' = true <-> Climbing.playerY c' <= 0)
      /\ (0 <= deltaTime f -> Climbing.playerY c' <= Climbing.playerY c)).
Proof.
  cbv zeta.
  assert (L : climbingSummit (Climbing.run (Climbing.initialGameState w) es)).
  { generalize (climbingSummit_initial w).
    generalize (Climbing.initialGameState w) as c.
    induction es as [|e es IH]; intros c L; [exact L|].
    apply IH. now apply climbing_step_summit. }
  destruct L as (V & G). split; [exact V|]. split; [exact G|].
  intros A. rewrite (climbing_update_alive f _ A). cbn. rewrite V.
  split; [apply Qle_bool_iff | intros D; lra].
Qed.

Lemma climbing_run_ends_at_the_top_witness :
  let c := Climbing.run (Climbing.initialGameState (Some Scenario.desktop)) Play.climb in
  Climbing.isGameOver c = true /\ Climbing.playerY c <= 0.
Proof.
  intros c.
  destruct (climbing_run_ends_at_the_top (Some Scenario.desktop) Play.climb
              Scenario.stillFrame) as (_ & T & _).
  split; [reflexivity | apply T; reflexivity].
Defined.

(** ** More on the spawn schedule *)

(** X15. No obstacle is spawned within three tenths of a second of the last
    spawn: a frame of a running game whose new elapsed time is at most 0.3
    after [lastObstacleTime] only moves and culls the obstacles and leaves
    [lastObstacleTime] alone. *)
Theorem no_spawn_within_the_floor (f : Frame) (s : GameState) :
  isGameOver s = false ->
  timeElapsed s + deltaTime f - lastObstacleTime s <= 3 # 10 ->
  let a := Centered.updateGameState f s in
  let b := Lowered.updateGameState f s in
  (obstacles a = advanceObstacles f (obstacles s)
   /\ lastObstacleTime a = lastObstacleTime s)
  /\ (obstacles b = advanceObstacles f (obstacles s)
      /\ lastObstacleTime b = lastObstacleTime s).
Proof.
  intros A G a b.
  assert (N : ~ obstacleSpawnRate (timeElapsed s + deltaTime f)
                < timeElapsed s + deltaTime f - lastObstacleTime s).
  { pose proof (obstacleSpawnRate_floor (timeElapsed s + deltaTime f)) as F.
    unfold minSpawnRate in F. lra. }
  split.
  - apply (centered_spawn f s A) in N. destruct N as (_ & O & T). now split.
  - apply (lowered_spawn f s A) in N. destruct N as (_ & O & T). now split.
Qed.

Lemma no_spawn_within_the_floor_witness :
  let s := Centered.updateGameState Scenario.touchingFrame Scenario.tallStart in
  obstacles (Centered.updateGameState Play.fifth s)
  = advanceObstacles Play.fifth (obstacles s).
Proof.
  intros s.
  apply (no_spawn_within_the_floor Play.fifth s eq_refl). discriminate.
Defined.

(** X16. The first obstacle of a run appears once the elapsed time has passed
    15/11 of a second: with [lastObstacleTime] at zero, a frame of a running
    game spawns exactly when its new elapsed time is above 15/11. *)
Theorem first_obstacle_after_fifteen_elevenths (f : Frame) (s : GameState) :
  isGameOver s = false ->
  lastObstacleTime s == 0 ->
  let now := timeElapsed s + deltaTime f in
  let a := Centered.updateGameState f s in
  let b := Lowered.updateGameState f s in
  (15 # 11 < now ->
   obstacles a = advanceObstacles f (obstacles s ++ [Centered.newObstacle f])
   /\ obstacles b = advanceObstacles f (obstacles s ++ [Lowered.newObstacle f s])
   /\ lastObstacleTime a = now /\ lastObstacleTime b = now)
  /\ (now <= 15 # 11 ->
      obstacles a = advanceObstacles f (obstacles s)
      /\ obstacles b = advanceObstacles f (obstacles s)
      /\ lastObstacleTime a = lastObstacleTime s
      /\ lastObstacleTime b = lastObstacleTime s).
Proof.
  intros A Z now a b.
  assert (R : obstacleSpawnRate now < now - lastObstacleTime s <-> 15 # 11 < now).
  { unfold obstacleSpawnRate, minSpawnRate, baseSpawnRate, timeSpeedupFactor.
    destruct (Q.max_spec (3 # 10) ((3 # 2) - now * (1 # 10))) as [[? E] | [? E]];
      rewrite E; split; intros; lra. }
  split; intros T.
  - apply R in T.
    destruct (proj1 (centered_spawn f s A) T) as (_ & Oa & Ta).
    destruct (proj1 (lowered_spawn f s A) T) as (_ & Ob & Tb). auto.
  - assert (N : ~ obstacleSpawnRate now < now - lastObstacleTime s).
    { rewrite R. lra. }
    destruct (proj2 (centered_spawn f s A) N) as (_ & Oa & Ta).
    destruct (proj2 (lowered_spawn f s A) N) as (_ & Ob & Tb). auto.
Qed.

Lemma first_obstacle_after_fifteen_elevenths_witness :
  List.length (obstacles (Centered.updateGameState Scenario.touchingFrame
                            Scenario.tallStart)) = 1%nat
  /\ obstacles (Centered.updateGameState Play.fifth Scenario.tallStart) = [].
Proof.
  destruct (first_obstacle_after_fifteen_elevenths Scenario.touchingFrame
              Scenario.tallStart eq_refl ltac:(reflexivity)) as [S _].
  destruct (first_obstacle_after_fifteen_elevenths Play.fifth
              Scenario.tallStart eq_refl ltac:(reflexivity)) as [_ N].
  destruct S as (Oa & _); [reflexivity|].
  destruct N as (Na & _); [discriminate|].
  split; [rewrite Oa; reflexivity | rewrite Na; reflexivity].
Defined.

(** ** The time display *)

Lemma Qfloor_unique (x : Q) (z : Z) :
  inject_Z z <= x -> x < inject_Z (z + 1) -> Qfloor x = z.
Proof.
  intros L U. apply Z.le_antisymm.
  - assert (H : inject_Z (Qfloor x) < inject_Z (z + 1)).
    { apply Qle_lt_trans with x; [apply Qfloor_le | exact U]. }
    rewrite <- Zlt_Qlt in H. lia.
  - rewrite <- (Qfloor_Z z). now apply Qfloor_resp_le.
Qed.

Lemma Qtruncate_nonneg (q : Q) : 0 <= q -> Qtruncate q = Qfloor q.
Proof. intros L. unfold Qtruncate. apply Qle_bool_iff in L. now rewrite L. Qed.

Lemma Qfloor_nonneg (x : Q) : 0 <= x -> (0 <= Qfloor x)%Z.
Proof. intros L. rewrite <- (Qfloor_Z 0). now apply Qfloor_resp_le. Qed.

(** What [Math.floor(seconds / 60)] and [Math.floor(seconds % 60)] are in terms
    of the whole seconds. *)
Lemma whole_seconds_split (seconds : Q) :
  0 <= seconds ->
  Qfloor (seconds / 60) = (Qfloor seconds / 60)%Z
  /\ Qfloor (remainder seconds 60) = (Qfloor seconds mod 60)%Z.
Proof.
  intros L.
  pose proof (Qfloor_le seconds) as F0. pose proof (Qlt_floor seconds) as F1.
  set (n := Qfloor seconds) in *.
  pose proof (Z.div_mod n 60 ltac:(lia)) as DM.
  pose proof (Z.mod_pos_bound n 60 ltac:(lia)) as [R0 R1].
  set (q := (n / 60)%Z) in *. set (r := (n mod 60)%Z) in *.
  assert (E : inject_Z n == 60 * inject_Z q + inject_Z r).
  { rewrite DM, inject_Z_plus, inject_Z_mult. reflexivity. }
  assert (E1 : inject_Z (n + 1) == inject_Z n + 1).
  { rewrite inject_Z_plus. reflexivity. }
  assert (Q0 : 0 <= inject_Z r).
  { change 0 with (inject_Z 0). rewrite <- Zle_Qle. lia. }
  assert (Q1 : inject_Z r <= 59).
  { change 59 with (inject_Z 59). rewrite <- Zle_Qle. lia. }
  assert (M : Qfloor (seconds / 60) = q).
  { apply Qfloor_unique.
    - apply Qle_shift_div_l; [reflexivity|]. lra.
    - apply Qlt_shift_div_r; [reflexivity|]. rewrite inject_Z_plus.
      change (inject_Z 1) with 1. lra. }
  split; [exact M|].
  unfold remainder. rewrite Qtruncate_nonneg, M.
  - apply Qfloor_unique.
    + lra.
    + rewrite inject_Z_plus. change (inject_Z 1) with 1. lra.
  - apply Qle_shift_div_l; [reflexivity|]. lra.
Qed.

Lemma toString_small (z : Z) :
  (0 <= z < maxSafe)%Z -> toString z = Some (decimal z).
Proof.
  intros B. unfold toString. rewrite Z.abs_eq by lia.
  now rewrite (proj2 (Z.ltb_lt z maxSafe)).
Qed.

(** X17. [formatTime] truncates, it does not round: for a time that is not
    negative and below 2^53 seconds it shows the minutes and the seconds of
    the whole seconds, with all the digits of the minutes, so a time and its
    floor are displayed alike. *)
Theorem formatTime_truncates (seconds : Q) :
  0 <= seconds ->
  seconds < inject_Z maxSafe ->
  let n := Qfloor seconds in
  formatTime seconds
  = Some (append (padStart 2 "0" (decimal (n / 60)))
            (append ":" (padStart 2 "0" (decimal (n mod 60)))))
  /\ formatTime seconds = formatTime (inject_Z n).
Proof.
  intros L U n.
  destruct (whole_seconds_split seconds L) as [M S].
  assert (N0 : (0 <= n)%Z) by now apply Qfloor_nonneg.
  assert (N1 : (n < maxSafe)%Z).
  { rewrite Zlt_Qlt. apply Qle_lt_trans with seconds; [apply Qfloor_le | exact U]. }
  assert (Ln : 0 <= inject_Z n).
  { change 0 with (inject_Z 0). rewrite <- Zle_Qle. exact N0. }
  destruct (whole_seconds_split (inject_Z n) Ln) as [M' S'].
  rewrite Qfloor_Z in M', S'.
  assert (B1 : (0 <= n mod 60 < 60)%Z) by (apply Z.mod_pos_bound; lia).
  assert (B2 : (0 <= n / 60 <= n)%Z).
  { split; [apply Z.div_pos; lia | apply Z.div_le_upper_bound; lia]. }
  assert (K : (60 < maxSafe)%Z) by reflexivity.
  unfold formatTime. rewrite M, S, M', S'. fold n.
  rewrite !toString_small by lia. now split.
Qed.

Lemma formatTime_truncates_witness :
  formatTime (119999 # 1000) = Some "01:59"%string
  /\ formatTime 6000 = Some "100:00"%string
  /\ formatTime (119999 # 1000) = formatTime 119.
Proof.
  destruct (formatTime_truncates (119999 # 1000)
              ltac:(discriminate) ltac:(reflexivity)) as [E T].
  destruct (formatTime_truncates 6000 ltac:(discriminate) ltac:(reflexivity))
    as [E' _].
  split; [rewrite E; reflexivity|]. split; [rewrite E'; reflexivity | exact T].
Defined.

Lemma padStart_two_digits_check :
  forallb (fun k => String.eqb (padStart 2 "0" (decimal (Z.of_nat k)))
                      (twoDigits (Z.of_nat k)))
    (seq 0 100) = true.
Proof. vm_compute. reflexivity. Qed.

Lemma padStart_two_digits (z : Z) :
  (0 <= z < 100)%Z -> padStart 2 "0" (decimal z) = twoDigits z.
Proof.
  intros B. pose proof padStart_two_digits_check as C.
  rewrite forallb_forall in C. specialize (C (Z.to_nat z)).
  rewrite Z2Nat.id in C by lia. apply String.eqb_eq, C, in_seq. lia.
Qed.

(** X18. Below a hundred minutes [formatTime] gives the five characters
    MM:SS: two digits of whole minutes, a colon, and two digits of the whole
    seconds of the minute, each padded with a zero. *)
Theorem formatTime_is_MM_SS (seconds : Q) :
  0 <= seconds ->
  seconds < 6000 ->
  let n := Qfloor seconds in
  formatTime seconds
  = Some (append (twoDigits (n / 60)) (append ":" (twoDigits (n mod 60))))
  /\ (forall text, formatTime seconds = Some text -> String.length text = 5%nat)
  /\ (0 <= n mod 60 < 60)%Z
  /\ (0 <= n / 60 < 100)%Z.
Proof.
  intros L U n.
  destruct (whole_seconds_split seconds L) as [M S].
  assert (N0 : (0 <= n)%Z) by now apply Qfloor_nonneg.
  assert (N1 : (n < 6000)%Z).
  { rewrite Zlt_Qlt. change (inject_Z 6000) with 6000.
    apply Qle_lt_trans with seconds; [apply Qfloor_le | exact U]. }
  assert (B1 : (0 <= n mod 60 < 60)%Z) by (apply Z.mod_pos_bound; lia).
  assert (B2 : (0 <= n / 60 < 100)%Z).
  { split; [apply Z.div_pos; lia | apply Z.div_lt_upper_bound; lia]. }
  assert (K : (100 < maxSafe)%Z) by reflexivity.
  assert (E : formatTime seconds
              = Some (append (twoDigits (n / 60))
                        (append ":" (twoDigits (n mod 60))))).
  { unfold formatTime. rewrite M, S. fold n.
    rewrite !toString_small by lia.
    rewrite !padStart_two_digits by lia. reflexivity. }
  split; [exact E|]. split; [|split; assumption].
  intros text T. rewrite E in T. injection T as <-. reflexivity.
Qed.

Lemma formatTime_is_MM_SS_witness :
  formatTime (7199 # 2) = Some "59:59"%string
  /\ scoreDisplay None = Some "00:00"%string.
Proof.
  destruct (formatTime_is_MM_SS (7199 # 2) ltac:(discriminate) ltac:(reflexivity))
    as (E & _).
  split; [rewrite E; reflexivity | reflexivity].
Defined.
